(** * Flow Core Validation: the validator, schema, pipeline, conditional
    validator and builder classes of the repository, embedded in Rocq.

    The package itself ([src/index.ts]) declares interfaces only; the
    classes that implement them live in the test suite
    ([test/validation.test.ts]) and in the usage examples of the README.
    This development embeds those classes and states the contract of the
    specification against them. *)

From Stdlib Require Import String Ascii NArith ZArith Floats Lia.
From stdpp Require Import base option list gmap.

Set Warnings "-register-all".
Local Open Scope N_scope.

(** ** JavaScript strings

    A JavaScript string is a finite sequence of UTF-16 code units.  A code
    unit is kept as an [N]; a well-formed one is below [65536], and no
    operation below produces a larger one from well-formed operands. *)

Definition JsString : Type := list N.

(** The string literal of the source, one code unit per character. *)
Definition js (s : string) : JsString :=
  List.map N_of_ascii (list_ascii_of_string s).

(** [WhiteSpace] and [LineTerminator] of ECMAScript: what [String.prototype.trim]
    strips and what the class escape [\s] matches. *)
Definition isWhiteSpace (c : N) : bool :=
     (c =? 0x0009) || (c =? 0x000A) || (c =? 0x000B) || (c =? 0x000C)
  || (c =? 0x000D) || (c =? 0x0020) || (c =? 0x00A0) || (c =? 0x1680)
  || ((0x2000 <=? c) && (c <=? 0x200A))
  || (c =? 0x2028) || (c =? 0x2029) || (c =? 0x202F) || (c =? 0x205F)
  || (c =? 0x3000) || (c =? 0xFEFF).

Fixpoint trimStart (s : JsString) : JsString :=
  match s with
  | c :: s' => if isWhiteSpace c then trimStart s' else s
  | [] => []
  end.

Definition trimEnd (s : JsString) : JsString :=
  rev (trimStart (rev s)).

(** [s.trim()] *)
Definition trim (s : JsString) : JsString := trimEnd (trimStart s).

(** [s.includes(c)] for a one-unit search string. *)
Definition includes (s : JsString) (c : N) : bool :=
  existsb (N.eqb c) s.

(** ** Regular expressions

    [RegExp.prototype.test] for patterns without back-references or
    look-around decides membership in a regular language; the matcher
    below does so by derivatives.  A pattern anchored with [^] and [$]
    (no [m] flag) has to match the whole input. *)

Inductive regex : Type :=
  | ReNone : regex
  | ReEmpty : regex
  | ReClass : (N -> bool) -> regex
  | ReSeq : regex -> regex -> regex
  | ReAlt : regex -> regex -> regex
  | ReStar : regex -> regex.

Definition RePlus (r : regex) : regex := ReSeq r (ReStar r).

Fixpoint nullable (r : regex) : bool :=
  match r with
  | ReNone => false
  | ReEmpty => true
  | ReClass _ => false
  | ReSeq r1 r2 => nullable r1 && nullable r2
  | ReAlt r1 r2 => nullable r1 || nullable r2
  | ReStar _ => true
  end.

Fixpoint deriv (c : N) (r : regex) : regex :=
  match r with
  | ReNone => ReNone
  | ReEmpty => ReNone
  | ReClass p => if p c then ReEmpty else ReNone
  | ReSeq r1 r2 =>
      if nullable r1
      then ReAlt (ReSeq (deriv c r1) r2) (deriv c r2)
      else ReSeq (deriv c r1) r2
  | ReAlt r1 r2 => ReAlt (deriv c r1) (deriv c r2)
  | ReStar r1 => ReSeq (deriv c r1) (ReStar r1)
  end.

(** [/^r$/.test(s)] *)
Fixpoint test_anchored (r : regex) (s : JsString) : bool :=
  match s with
  | [] => nullable r
  | c :: s' => test_anchored (deriv c r) s'
  end.

(** The class [[^\s@]]. *)
Definition notSpaceNorAt (c : N) : bool :=
  negb (isWhiteSpace c || (c =? 0x40)).

(** [/^[^\s@]+@[^\s@]+\.[^\s@]+$/] *)
Definition emailRegex : regex :=
  ReSeq (RePlus (ReClass notSpaceNorAt))
    (ReSeq (ReClass (N.eqb 0x40))
       (ReSeq (RePlus (ReClass notSpaceNorAt))
          (ReSeq (ReClass (N.eqb 0x2E))
             (RePlus (ReClass notSpaceNorAt))))).

(** ** The result convention of [@codechu/flow-core-seed]

    [FlowResult], [success], [failure], [flowError] and [IFlowContext] are
    imported from [@codechu/flow-core-seed], which is not part of this
    repository.  The context is a type parameter throughout; the result
    convention is modelled below. *)

(** A thrown or attached JavaScript error object, e.g. [new RangeError(msg)]. *)
Record JsError : Type := mkJsError {
  error_name : JsString;
  error_message : JsString
}.

(** Modelled from the spec: the structured error [flowError(code, message,
    cause?)] builds, missing from the sources; section 7 gives it a string
    code and a message, the call sites pass an optional cause. *)
Record FlowError : Type := mkFlowError {
  code : JsString;
  message : JsString;
  cause : option JsError
}.

Definition flowError (code message : JsString) (cause : option JsError)
  : FlowError := mkFlowError code message cause.

(** Modelled from the spec: the result type [FlowResult<T>] with its
    constructors [success] and [failure], missing from the sources;
    section 6 calls it a binary convention, success-with-value or
    failure-with-structured-error.  The test suite reads a result back
    through [result.success] and [result.data].  The README pipeline reads
    [result.isSuccess] and [result.value]; nothing in the sources says what
    these two properties hold, so [StringValidationPipeline] takes them as
    parameters. *)
Inductive FlowResult (T : Type) : Type :=
  | Success (value : T)
  | Failure (error : FlowError).
Arguments Success {T} value.
Arguments Failure {T} error.

Definition success {T} (value : T) : FlowResult T := Success value.
Definition failure {T} (error : FlowError) : FlowResult T := Failure error.

(** [result.success], the flag the test suite reads. *)
Definition result_success {T} (result : FlowResult T) : bool :=
  match result with Success _ => true | Failure _ => false end.

(** ** Asynchronous and synchronous calls

    An [async] method may act on the world around it (log through the
    context, count its calls) and settles either fulfilled with a value or
    rejected with a thrown error.  [World] is that surrounding state; it is
    kept apart from the heap of pipeline objects, which validators do not
    reach. *)

Inductive Settled (A : Type) : Type :=
  | Fulfilled (a : A)
  | Rejected (reason : JsError).
Arguments Fulfilled {A} a.
Arguments Rejected {A} reason.

Definition Promise (World A : Type) : Type := World -> Settled A * World.

(** A synchronous method: a value and the world it leaves behind. *)
Definition Sync (World A : Type) : Type := World -> A * World.

Section Async.
Context {World : Type}.

(** [return a] in an [async] function. *)
Definition resolve {A} (a : A) : Promise World A :=
  fun w => (Fulfilled a, w).

(** [throw e] in an [async] function. *)
Definition reject {A} (e : JsError) : Promise World A :=
  fun w => (Rejected e, w).

(** [const x = await p; k x] *)
Definition await {A B} (p : Promise World A) (k : A -> Promise World B)
  : Promise World B :=
  fun w =>
    match p w with
    | (Fulfilled a, w') => k a w'
    | (Rejected e, w') => (Rejected e, w')
    end.

(** [return a] in a synchronous function. *)
Definition sync_return {A} (a : A) : Sync World A := fun w => (a, w).

(** The state of a [for (const x of xs)] loop after an iteration: either
    the loop variable carried on, or the value of a [return] inside the
    body. *)
Inductive Step (S R : Type) : Type :=
  | Continue (s : S)
  | Return (r : R).
Arguments Continue {S R} s.
Arguments Return {S R} r.

Fixpoint for_of {X S R} (xs : list X)
    (body : X -> S -> Promise World (Step S R)) (s : S)
  : Promise World (Step S R) :=
  match xs with
  | [] => resolve (Continue s)
  | x :: xs' =>
      await (body x s) (fun st =>
        match st with
        | Continue s' => for_of xs' body s'
        | Return r => resolve (Return r)
        end)
  end.
End Async.

Arguments Continue {S R} s.
Arguments Return {S R} r.

Declare Scope async_scope.
Delimit Scope async_scope with async.
Notation "x <- 'await' p ;; k" := (await p (fun x => k))
  (at level 100, p at next level, right associativity) : async_scope.
Local Open Scope async_scope.

(** ** The interfaces of [src/index.ts] *)

Record IFlowValidator (IFlowContext World TInput TOutput : Type) : Type :=
  mkValidator {
    id : JsString;
    name : JsString;
    description : option JsString;
    validate : TInput -> IFlowContext -> Promise World (FlowResult TOutput)
  }.
Arguments mkValidator {IFlowContext World TInput TOutput}.
Arguments id {IFlowContext World TInput TOutput}.
Arguments name {IFlowContext World TInput TOutput}.
Arguments description {IFlowContext World TInput TOutput}.
Arguments validate {IFlowContext World TInput TOutput}.

(** Values of type [unknown]: what a [Record<string, unknown>] may hold.
    An object keeps its properties in insertion order. *)
Inductive JsValue : Type :=
  | VUndefined : JsValue
  | VBoolean : bool -> JsValue
  | VNumber : float -> JsValue
  | VString : JsString -> JsValue
  | VArray : list JsValue -> JsValue
  | VObject : list (JsString * JsValue) -> JsValue.

Definition JsRecord : Type := list (JsString * JsValue).

(** [record[key]] *)
Fixpoint get_property (record : JsRecord) (key : JsString) : JsValue :=
  match record with
  | [] => VUndefined
  | (k, v) :: record' =>
      if decide (k = key) then v else get_property record' key
  end.

Record IFlowSchema (IFlowContext World TInput TOutput : Type) : Type :=
  mkSchema {
    schema_id : JsString;
    schema_name : JsString;
    version : option JsString;
    validateSchema :
      TInput -> IFlowContext -> Promise World (FlowResult TOutput);
    getSchemaRules : Sync World JsRecord
  }.
Arguments mkSchema {IFlowContext World TInput TOutput}.
Arguments schema_id {IFlowContext World TInput TOutput}.
Arguments schema_name {IFlowContext World TInput TOutput}.
Arguments version {IFlowContext World TInput TOutput}.
Arguments validateSchema {IFlowContext World TInput TOutput}.
Arguments getSchemaRules {IFlowContext World TInput TOutput}.

Record IFlowConditionalValidator (IFlowContext World TInput TOutput : Type)
  : Type := mkConditional {
    conditional_id : JsString;
    conditional_name : JsString;
    shouldValidate : TInput -> IFlowContext -> Promise World bool;
    validateConditionally :
      TInput -> IFlowContext -> Promise World (FlowResult TOutput)
  }.
Arguments mkConditional {IFlowContext World TInput TOutput}.
Arguments conditional_id {IFlowContext World TInput TOutput}.
Arguments conditional_name {IFlowContext World TInput TOutput}.
Arguments shouldValidate {IFlowContext World TInput TOutput}.
Arguments validateConditionally {IFlowContext World TInput TOutput}.

Record IFlowValidationRule : Type := mkRule {
  rule_id : JsString;
  rule_name : JsString;
  rule_type : JsString;
  parameters : JsRecord;
  errorMessage : option JsString
}.

Record IFlowValidationError : Type := mkValidationError {
  verr_code : JsString;
  verr_message : JsString;
  field : option JsString;
  expected : option JsValue;
  actual : option JsValue;
  rule : option IFlowValidationRule;
  verr_context : option JsRecord
}.

Record ValidationMetadata : Type := mkMetadata {
  validatorId : JsString;
  executionTime : option float;
  rulesApplied : list JsString
}.

Record IFlowValidationResult (TOutput : Type) : Type := mkValidationResult {
  isValid : bool;
  data : option TOutput;
  errors : list IFlowValidationError;
  warnings : list IFlowValidationError;
  metadata : ValidationMetadata
}.
Arguments mkValidationResult {TOutput}.
Arguments isValid {TOutput}.
Arguments data {TOutput}.
Arguments errors {TOutput}.
Arguments warnings {TOutput}.
Arguments metadata {TOutput}.

(** ** The validators

    [toLowerCase], [toUpperCase] and the conversion of a number inside a
    template literal are the built-ins of the language; each class takes
    the ones it calls as a parameter. *)

(** README, "Core Philosophy": [class EmailValidator]. *)
Module EmailValidator.
Section Class.
Context {IFlowContext World : Type}.
Variable toLowerCase : JsString -> JsString.

Definition validate (input : JsString) (context : IFlowContext)
  : Promise World (FlowResult JsString) :=
  resolve
    (if test_anchored emailRegex input
     then success (toLowerCase input)
     else failure (flowError (js "INVALID_EMAIL")
                     (js "Invalid email format") None)).

Definition new : IFlowValidator IFlowContext World JsString JsString :=
  mkValidator (js "email-validator") (js "Email Validation") None validate.
End Class.
End EmailValidator.

(** README, "Basic Validator Implementation": [class NumberRangeValidator].
    A number is an IEEE 754 double; [a >= b] and [a <= b] are false as soon
    as one side is NaN, as [PrimFloat.leb] is.  The fields [id] and [name]
    are class fields: under the ES2022 target of [tsup.config.ts] their
    initialisers run before the constructor assigns the parameter
    properties [min] and [max], so both template literals read
    [undefined]. *)
Module NumberRangeValidator.
Section Class.
Context {IFlowContext World : Type}.
Variable numberToString : float -> JsString.
Variables min max : float.

Definition RangeError (msg : JsString) : JsError :=
  mkJsError (js "RangeError") msg.

Definition validate (input : float) (context : IFlowContext)
  : Promise World (FlowResult float) :=
  if PrimFloat.leb min input && PrimFloat.leb input max
  then resolve (success input)
  else resolve (failure (flowError
         (js "OUT_OF_RANGE")
         (js "Number " ++ numberToString input ++ js " not in range "
            ++ numberToString min ++ js "-" ++ numberToString max)
         (Some (RangeError
            (js "Expected " ++ numberToString min ++ js "-"
               ++ numberToString max ++ js ", got "
               ++ numberToString input))))).

Definition new : IFlowValidator IFlowContext World float float :=
  mkValidator
    (js "range-undefined-undefined")
    (js "Number Range Validator (undefined-undefined)")
    None validate.
End Class.
End NumberRangeValidator.

(** test/validation.test.ts: [class TestValidator]. *)
Module TestValidator.
Section Class.
Context {IFlowContext World : Type}.
Variable toUpperCase : JsString -> JsString.

Definition validate (input : JsString) (context : IFlowContext)
  : Promise World (FlowResult JsString) :=
  resolve (success (toUpperCase input)).

Definition new : IFlowValidator IFlowContext World JsString JsString :=
  mkValidator (js "test-validator") (js "Test Validator")
    (Some (js "A test validator")) validate.
End Class.
End TestValidator.

(** ** The schemas *)

(** test/validation.test.ts: [class TestSchema]. *)
Module TestSchema.
Section Class.
Context {IFlowContext World : Type}.

Definition validateSchema (input : JsValue) (context : IFlowContext)
  : Promise World (FlowResult JsValue) :=
  resolve (success input).

Definition getSchemaRules : Sync World JsRecord :=
  sync_return
    [ (js "type", VString (js "object"));
      (js "required", VArray []) ].

Definition new : IFlowSchema IFlowContext World JsValue JsValue :=
  mkSchema (js "test-schema") (js "Test Schema") (Some (js "1.0.0"))
    validateSchema getSchemaRules.
End Class.
End TestSchema.

(** README, "Schema Validation": [class UserSchema]. *)
Module UserSchema.
Section Class.
Context {IFlowContext World : Type}.

Definition validateSchema (input : JsValue) (context : IFlowContext)
  : Promise World (FlowResult JsValue) :=
  resolve (success input).

Definition getSchemaRules : Sync World JsRecord :=
  sync_return
    [ (js "type", VString (js "object"));
      (js "properties", VObject
         [ (js "name", VObject
              [ (js "type", VString (js "string"));
                (js "required", VBoolean true) ]);
           (js "email", VObject
              [ (js "type", VString (js "string"));
                (js "format", VString (js "email"));
                (js "required", VBoolean true) ]);
           (js "age", VObject
              [ (js "type", VString (js "number"));
                (js "minimum", VNumber 0%float);
                (js "maximum", VNumber 150%float) ]) ]) ].

Definition new : IFlowSchema IFlowContext World JsValue JsValue :=
  mkSchema (js "user-schema") (js "User Data Schema") (Some (js "1.0.0"))
    validateSchema getSchemaRules.
End Class.
End UserSchema.

(** ** The pipelines

    A pipeline is an object with identity: [addValidator] pushes onto the
    array the object owns and hands back [this].  Objects live in a heap
    keyed by reference; a method takes its receiver as a reference and
    is defined when the receiver is live.  [any] is the type of what
    flows between the stages. *)

Definition ref : Type := positive.

Record PipelineObject (IFlowContext World Any : Type) : Type := mkPipeline {
  pipeline_id : JsString;
  pipeline_name : JsString;
  validators : list (IFlowValidator IFlowContext World Any Any)
}.
Arguments mkPipeline {IFlowContext World Any}.
Arguments pipeline_id {IFlowContext World Any}.
Arguments pipeline_name {IFlowContext World Any}.
Arguments validators {IFlowContext World Any}.

(** [this.validators.push(validator)] *)
Definition push_validator {IFlowContext World Any}
    (o : PipelineObject IFlowContext World Any)
    (validator : IFlowValidator IFlowContext World Any Any)
  : PipelineObject IFlowContext World Any :=
  mkPipeline (pipeline_id o) (pipeline_name o) (validators o ++ [validator]).

(** The object literal [getPipelineInfo] returns. *)
Record PipelineInfo : Type := mkPipelineInfo {
  validatorCount : nat;
  validatorIds : list JsString
}.

(** README, "Validation Pipeline": [class StringValidationPipeline].
    [isSuccess result] is whether [result.isSuccess] is truthy and
    [value result] is what [result.value] reads; a property the result
    does not have reads [undefined], which is falsy. *)
Module StringValidationPipeline.
Section Class.
Context {IFlowContext World Any : Type}.
Variable isSuccess : FlowResult Any -> bool.
Variable value : FlowResult Any -> Any.
Local Abbreviation Heap := (gmap ref (PipelineObject IFlowContext World Any)).
Local Abbreviation Validator := (IFlowValidator IFlowContext World Any Any).

(** [new StringValidationPipeline()] *)
Definition new (σ : Heap) : ref * Heap :=
  let this := fresh (dom σ) in
  (this,
   <[this := mkPipeline (js "string-pipeline")
               (js "String Validation Pipeline") []]> σ).

Definition addValidator (this : ref) (validator : Validator) (σ : Heap)
  : option (ref * Heap) :=
  match σ !! this with
  | Some o => Some (this, <[this := push_validator o validator]> σ)
  | None => None
  end.

Definition validatePipeline (this : ref) (input : Any)
    (context : IFlowContext) (σ : Heap)
  : option (Promise World (FlowResult Any)) :=
  match σ !! this with
  | Some o =>
      Some (
        st <- await
          for_of (validators o)
            (fun validator current =>
               result <- await validate validator current context ;;
               if negb (isSuccess result)
               then resolve (Return result)
               else resolve (Continue (value result)))
            input ;;
        match st with
        | Return result => resolve result
        | Continue current => resolve (success current)
        end)
  | None => None
  end.

Definition getPipelineInfo (this : ref) (σ : Heap) : option PipelineInfo :=
  match σ !! this with
  | Some o =>
      Some (mkPipelineInfo (length (validators o))
              (List.map (fun v => id v) (validators o)))
  | None => None
  end.
End Class.
End StringValidationPipeline.

(** test/validation.test.ts: [class TestValidationPipeline]. *)
Module TestValidationPipeline.
Section Class.
Context {IFlowContext World Any : Type}.
Local Abbreviation Heap := (gmap ref (PipelineObject IFlowContext World Any)).
Local Abbreviation Validator := (IFlowValidator IFlowContext World Any Any).

(** [new TestValidationPipeline()] *)
Definition new (σ : Heap) : ref * Heap :=
  let this := fresh (dom σ) in
  (this, <[this := mkPipeline (js "test-pipeline") (js "Test Pipeline") []]> σ).

Definition addValidator (this : ref) (validator : Validator) (σ : Heap)
  : option (ref * Heap) :=
  match σ !! this with
  | Some o => Some (this, <[this := push_validator o validator]> σ)
  | None => None
  end.

Definition validatePipeline (this : ref) (input : Any)
    (context : IFlowContext) (σ : Heap)
  : option (Promise World (FlowResult Any)) :=
  match σ !! this with
  | Some _ => Some (resolve (success input))
  | None => None
  end.

Definition getPipelineInfo (this : ref) (σ : Heap) : option PipelineInfo :=
  match σ !! this with
  | Some o =>
      Some (mkPipelineInfo (length (validators o))
              (List.map (fun v => id v) (validators o)))
  | None => None
  end.
End Class.
End TestValidationPipeline.

(** ** The conditional validators *)

(** test/validation.test.ts: [class TestConditionalValidator]. *)
Module TestConditionalValidator.
Section Class.
Context {IFlowContext World : Type}.

Definition shouldValidate (input : JsString) (context : IFlowContext)
  : Promise World bool :=
  resolve (Nat.ltb 0 (length input)).

Definition validateConditionally (input : JsString) (context : IFlowContext)
  : Promise World (FlowResult JsString) :=
  should <- await shouldValidate input context ;;
  if should : bool
  then resolve (success (trim input))
  else resolve (success input).

(** The validation the class applies once the predicate holds. *)
Definition wrapped (input : JsString) (context : IFlowContext)
  : Promise World (FlowResult JsString) :=
  resolve (success (trim input)).

Definition new
  : IFlowConditionalValidator IFlowContext World JsString JsString :=
  mkConditional (js "test-conditional") (js "Test Conditional Validator")
    shouldValidate validateConditionally.
End Class.
End TestConditionalValidator.

(** README, "Conditional Validation": [class ConditionalEmailValidator]. *)
Module ConditionalEmailValidator.
Section Class.
Context {IFlowContext World : Type}.
Variable toLowerCase : JsString -> JsString.

Definition shouldValidate (input : JsString) (context : IFlowContext)
  : Promise World bool :=
  resolve (includes input 0x40).

Definition validateConditionally (input : JsString) (context : IFlowContext)
  : Promise World (FlowResult JsString) :=
  should <- await shouldValidate input context ;;
  if should : bool
  then validate (EmailValidator.new toLowerCase) input context
  else resolve (success input).

(** The validation the class applies once the predicate holds. *)
Definition wrapped (input : JsString) (context : IFlowContext)
  : Promise World (FlowResult JsString) :=
  validate (EmailValidator.new toLowerCase) input context.

Definition new
  : IFlowConditionalValidator IFlowContext World JsString JsString :=
  mkConditional (js "conditional-email") (js "Conditional Email Validator")
    shouldValidate validateConditionally.
End Class.
End ConditionalEmailValidator.

(** ** The builder

    test/validation.test.ts: [class TestValidationBuilder].  Every fluent
    method pushes onto the private [rules] array and returns [this]; the
    builder below is the state of that one receiver, handed on from call
    to call. *)
Module TestValidationBuilder.
Section Class.
Context {IFlowContext World : Type}.
Variable toUpperCase : JsString -> JsString.

Record t : Type := mk { rules : list JsString }.

(** [new TestValidationBuilder()] *)
Definition new : t := mk [].

Definition required (this : t) : t :=
  mk (rules this ++ [js "required"]).

Definition type (expectedType : JsString) (this : t) : t :=
  mk (rules this ++ [js "type:" ++ expectedType]).

Definition custom {TOutput}
    (validator : IFlowValidator IFlowContext World JsString TOutput)
    (this : t) : t :=
  mk (rules this ++ [js "custom:" ++ id validator]).

Definition build (this : t)
  : IFlowValidator IFlowContext World JsString JsString :=
  TestValidator.new toUpperCase.
End Class.
End TestValidationBuilder.

(** ** The validation-result value of the test suite

    test/validation.test.ts, "should support validation result interface". *)
Definition test_validation_result : IFlowValidationResult JsString :=
  mkValidationResult true (Some (js "validated-data")) [] []
    (mkMetadata (js "test-validator") (Some 10%float)
       [js "required"; js "type-check"]).

(** ** The contract, in the words of the specification *)

Section Contract.
Context {IFlowContext World Any : Type}.
Local Abbreviation Heap := (gmap ref (PipelineObject IFlowContext World Any)).
Local Abbreviation Validator := (IFlowValidator IFlowContext World Any Any).

(** Run the validators of [vs] in order from [x] in world [w], feeding
    each one's output to the next: [Some (y, w')] when every one of them
    succeeds, [y] being the last output and [w'] the world they leave. *)
Fixpoint feed (context : IFlowContext) (vs : list Validator) (x : Any)
    (w : World) : option (Any * World) :=
  match vs with
  | [] => Some (x, w)
  | v :: vs' =>
      match validate v x context w with
      | (Fulfilled (Success y), w') => feed context vs' y w'
      | _ => None
      end
  end.



End Contract.

(** ** What [result.isSuccess] and [result.value] may read *)

(** The result library gives every result the two properties the README
    reads: [isSuccess] is the success flag and [value] the payload of a
    success. *)
Definition reads_flag_and_payload {T} (isSuccess : FlowResult T -> bool)
    (value : FlowResult T -> T) : Prop :=
  (forall v, isSuccess (Success v) = true /\ value (Success v) = v)
  /\ (forall e, isSuccess (Failure e) = false).

(** No result has a truthy [isSuccess]: the case of a library whose
    results carry [success] and [data], as the test suite reads them, and
    no [isSuccess]. *)
Definition reads_no_isSuccess {T} (isSuccess : FlowResult T -> bool) : Prop :=
  forall r, isSuccess r = false.

(** Whatever else the two properties read, a truthy [isSuccess] is only
    read off a success whose payload [value] reads.  Both cases above are
    of this kind. *)
Definition isSuccess_sound {T} (isSuccess : FlowResult T -> bool)
    (value : FlowResult T -> T) : Prop :=
  forall r, isSuccess r = true -> r = Success (value r).

(** Section 3: the output data of a validation result is present iff the
    result is valid. *)
Definition data_iff_valid {TOutput} (r : IFlowValidationResult TOutput)
  : Prop :=
  is_Some (data r) <-> isValid r = true.

(** Section 4.5: a builder does not silently drop the declared rules when
    declaring some shows in what it builds: a builder on which rules were
    declared does not build the validator of a builder on which none was. *)
Definition keeps_declared_rules {V} (build : TestValidationBuilder.t -> V)
  : Prop :=
  forall b : TestValidationBuilder.t,
    TestValidationBuilder.rules b <> [] ->
    build b <> build TestValidationBuilder.new.

(** Chained calls [p.addValidator(v1).addValidator(v2)...], each made on
    the reference the call before returned. *)
Fixpoint attach {Heap Validator : Type}
    (addValidator : ref -> Validator -> Heap -> option (ref * Heap))
    (this : ref) (vs : list Validator) (σ : Heap) : option (ref * Heap) :=
  match vs with
  | [] => Some (this, σ)
  | v :: vs' =>
      match addValidator this v σ with
      | Some (r, σ') => attach addValidator r vs' σ'
      | None => None
      end
  end.

(** Section 8: a result is exactly one of success-with-output and
    failure-with-error. *)
Definition one_of_success_or_failure {T} (r : FlowResult T) : Prop :=
  ((exists v, r = Success v) /\ ~ (exists e, r = Failure e))
  \/ ((exists e, r = Failure e) /\ ~ (exists v, r = Success v)).

(** Section 4.1: the call settles fulfilled, not by a thrown error, with
    such a result. *)
Definition returns_result {World T} (p : Promise World (FlowResult T))
    (w : World) : Prop :=
  exists r w', p w = (Fulfilled r, w') /\ one_of_success_or_failure r.

(** ** Built-ins and validators used in the worked examples *)

(** [toLowerCase] and [toUpperCase] on the ASCII letters; they agree with
    the built-ins on strings of ASCII code units. *)
Definition asciiToLowerCase (s : JsString) : JsString :=
  List.map (fun c => if (0x41 <=? c) && (c <=? 0x5A) then c + 32 else c) s.

Definition asciiToUpperCase (s : JsString) : JsString :=
  List.map (fun c => if (0x61 <=? c) && (c <=? 0x7A) then c - 32 else c) s.

(** A reading of [result.value] that gives the payload of a success, and
    [d] where there is none. *)
Definition payload_or {T} (d : T) (result : FlowResult T) : T :=
  match result with Success v => v | Failure _ => d end.

(** A spy: a validator that counts its invocations in the world and passes
    its input on. *)
Definition spy {IFlowContext} (ident : JsString)
  : IFlowValidator IFlowContext nat JsString JsString :=
  mkValidator ident ident None
    (fun input _ calls => (Fulfilled (success input), S calls)).

(** A validator named [ident] that lets everything through. *)
Definition named {IFlowContext World Any} (ident : JsString)
  : IFlowValidator IFlowContext World Any Any :=
  mkValidator ident ident None (fun input _ => resolve (success input)).

(** ** What a pattern denotes

    The language of a pattern, against which the matcher is checked. *)
Inductive matches : regex -> JsString -> Prop :=
  | matches_empty : matches ReEmpty []
  | matches_class p c : p c = true -> matches (ReClass p) [c]
  | matches_seq r1 r2 s1 s2 :
      matches r1 s1 -> matches r2 s2 -> matches (ReSeq r1 r2) (s1 ++ s2)
  | matches_alt_l r1 r2 s : matches r1 s -> matches (ReAlt r1 r2) s
  | matches_alt_r r1 r2 s : matches r2 s -> matches (ReAlt r1 r2) s
  | matches_star_nil r : matches (ReStar r) []
  | matches_star_cons r s1 s2 :
      matches r s1 -> matches (ReStar r) s2 -> matches (ReStar r) (s1 ++ s2).

(** A non-empty run of code units none of which is a white space or [@]. *)
Definition email_part (s : JsString) : Prop :=
  s <> [] /\ forallb notSpaceNorAt s = true.

(** The shape [local@domain.tld]: three such runs, the first two separated
    by [@] and the last two by a dot.  The domain may itself hold dots. *)
Definition email_shape (s : JsString) : Prop :=
  exists loc dom tld,
    s = loc ++ [0x40] ++ dom ++ [0x2E] ++ tld
    /\ email_part loc /\ email_part dom /\ email_part tld.

(** The first code unit of [s], if any, is no white space. *)
Definition starts_clean (s : JsString) : Prop :=
  match s with
  | c :: _ => isWhiteSpace c = false
  | [] => True
  end.

(** Neither the first nor the last code unit of [s] is a white space. *)
Definition stripped (s : JsString) : Prop :=
  starts_clean s /\ starts_clean (rev s).

(** A validator that throws [err] whatever it is given. *)
Definition throwing {IFlowContext World Any} (ident : JsString)
    (err : JsError) : IFlowValidator IFlowContext World Any Any :=
  mkValidator ident ident None (fun _ _ => reject err).

(** ** The validation context and the function form of a validator *)

(** [result: 'success' | 'failure' | 'warning'] of a history entry. *)
Inductive HistoryResult : Type :=
  | HistorySuccess
  | HistoryFailure
  | HistoryWarning.

Record ValidationHistoryEntry : Type := mkHistoryEntry {
  history_validatorId : JsString;
  timestamp : float;
  history_result : HistoryResult
}.

Record ValidationOptions : Type := mkValidationOptions {
  stopOnFirstError : bool;
  includeWarnings : bool;
  timeoutMs : option float
}.

(** [interface IFlowValidationContext extends IFlowContext]: the fields of
    the base context and the three the interface adds. *)
Record IFlowValidationContext (IFlowContext : Type) : Type :=
  mkValidationContext {
    base_context : IFlowContext;
    validationData : list (JsString * JsValue);
    validationHistory : list ValidationHistoryEntry;
    validationOptions : ValidationOptions
  }.
Arguments mkValidationContext {IFlowContext}.
Arguments base_context {IFlowContext}.
Arguments validationData {IFlowContext}.
Arguments validationHistory {IFlowContext}.
Arguments validationOptions {IFlowContext}.

(** [type FlowValidationFn<TInput, TOutput>] *)
Definition FlowValidationFn (IFlowContext World TInput TOutput : Type)
  : Type :=
  TInput -> IFlowValidationContext IFlowContext ->
  Promise World (FlowResult TOutput).

(** README, "Type-Safe Utilities": [const validateAge]. *)
Definition validateAge {IFlowContext World : Type}
  : FlowValidationFn IFlowContext World float float :=
  fun age context =>
    resolve
      (if PrimFloat.leb 18%float age && PrimFloat.leb age 120%float
       then success age
       else failure (flowError (js "INVALID_AGE")
                       (js "Age must be 18-120") None)).

(** ** Sequences of fluent calls on the builder *)

(** One fluent call: [.required()], [.type(t)] or [.custom(v)]. *)
Inductive Declaration (IFlowContext World : Type) : Type :=
  | DeclRequired
  | DeclType (expectedType : JsString)
  | DeclCustom (validator : IFlowValidator IFlowContext World JsString JsString).
Arguments DeclRequired {IFlowContext World}.
Arguments DeclType {IFlowContext World} expectedType.
Arguments DeclCustom {IFlowContext World} validator.

Definition declare {IFlowContext World} (d : Declaration IFlowContext World)
    (this : TestValidationBuilder.t) : TestValidationBuilder.t :=
  match d with
  | DeclRequired => TestValidationBuilder.required this
  | DeclType expectedType => TestValidationBuilder.type expectedType this
  | DeclCustom validator => TestValidationBuilder.custom validator this
  end.

(** A chain [b.d1().d2()...dn()]. *)
Definition declare_all {IFlowContext World}
    (ds : list (Declaration IFlowContext World))
    (this : TestValidationBuilder.t) : TestValidationBuilder.t :=
  fold_left (fun b d => declare d b) ds this.

(** The rule a call leaves in the log. *)
Definition rule_of {IFlowContext World}
    (d : Declaration IFlowContext World) : JsString :=
  match d with
  | DeclRequired => js "required"
  | DeclType expectedType => js "type:" ++ expectedType
  | DeclCustom validator => js "custom:" ++ id validator
  end.

(** What two calls must have in common to be the same declaration: the
    kind, and the type name or the identifier of the custom validator. *)
Definition same_declaration {IFlowContext World}
    (d1 d2 : Declaration IFlowContext World) : Prop :=
  match d1, d2 with
  | DeclRequired, DeclRequired => True
  | DeclType t1, DeclType t2 => t1 = t2
  | DeclCustom v1, DeclCustom v2 => id v1 = id v2
  | _, _ => False
  end.

(** * Properties *)

(** ** Strings and the e-mail pattern *)

Example emailRegex_accepts :
  test_anchored emailRegex (js "a.b@x.y.z") = true.
Proof. reflexivity. Qed.

Example emailRegex_rejects :
  test_anchored emailRegex (js "a b@x.y") = false
  /\ test_anchored emailRegex (js "a@b@c.d") = false
  /\ test_anchored emailRegex (js "a@b.") = false
  /\ test_anchored emailRegex (js "x") = false.
Proof. repeat split; reflexivity. Qed.

Example trim_examples :
  trim (js " x ") = js "x" /\ trim (js "") = js "" /\ trim (js "a b ") = js "a b".
Proof. repeat split; reflexivity. Qed.

(** ** The pipeline loop *)

Section Loop.
Context {IFlowContext World Any : Type}.
Variable isSuccess : FlowResult Any -> bool.
Variable value : FlowResult Any -> Any.
Local Abbreviation Heap := (gmap ref (PipelineObject IFlowContext World Any)).
Local Abbreviation Validator := (IFlowValidator IFlowContext World Any Any).

(** What [StringValidationPipeline.validatePipeline] runs once it has read
    [this.validators]. *)
Local Abbreviation run vs input context :=
  (st <- await
     for_of vs
       (fun (validator : Validator) (current : Any) =>
          result <- await validate validator current context ;;
          if negb (isSuccess result)
          then resolve (Return result)
          else resolve (Continue (value result)))
       input ;;
   match st with
   | Return result => resolve result
   | Continue current => resolve (success current)
   end).

Lemma validatePipeline_live (σ : Heap) this o input context :
  σ !! this = Some o ->
  StringValidationPipeline.validatePipeline isSuccess value
    this input context σ
  = Some (run (validators o) input context).
Proof.
  intros Hthis. unfold StringValidationPipeline.validatePipeline.
  by rewrite Hthis.
Qed.

(** One turn of the loop, whatever the two properties read. *)
Lemma run_cons (v : Validator) (vs : list Validator) input context w :
  run (v :: vs) input context w
  = match validate v input context w with
    | (Fulfilled r, w1) =>
        if isSuccess r then run vs (value r) context w1 else (Fulfilled r, w1)
    | (Rejected err, w1) => (Rejected err, w1)
    end.
Proof.
  cbn [for_of]. unfold await at 1 2 3.
  destruct (validate v input context w) as [[r|err] w1]; [|done].
  by destruct (isSuccess r).
Qed.

(** A failure or a rejection of the run over [vs1] is also what the run
    over [vs1 ++ vs2] settles on. *)
Lemma run_app_stops (vs1 vs2 : list Validator) context :
  forall input w w1,
    (forall err,
       run vs1 input context w = (Rejected err, w1) ->
       run (vs1 ++ vs2) input context w = (Rejected err, w1))
    /\ (forall e,
          run vs1 input context w = (Fulfilled (Failure e), w1) ->
          run (vs1 ++ vs2) input context w = (Fulfilled (Failure e), w1)).
Proof.
  induction vs1 as [|v vs1 IH]; intros input w w1.
  - split; intros ? H; discriminate H.
  - change ((v :: vs1) ++ vs2) with (v :: (vs1 ++ vs2)).
    rewrite !run_cons.
    destruct (validate v input context w) as [[r|err] w2]; [|done].
    destruct (isSuccess r); [apply IH|done].
Qed.

(** When none of the validators rejects, the run does not either. *)
Lemma run_fulfils (vs : list Validator) context :
  (forall v, In v vs ->
     forall x w0, exists r w1, validate v x context w0 = (Fulfilled r, w1)) ->
  forall input w, exists r w', run vs input context w = (Fulfilled r, w').
Proof.
  induction vs as [|v vs IH]; intros Hsafe input w.
  - by eexists _, _.
  - rewrite run_cons.
    destruct (Hsafe v (or_introl eq_refl) input w) as (r & w1 & ->).
    destruct (isSuccess r); [|by eexists _, _].
    apply IH. intros v' Hv'. apply Hsafe. by right.
Qed.

(** A first validator that rejects ends the run with its rejection. *)
Lemma run_first_rejected (v : Validator) (post : list Validator)
    input context w err w2 :
  validate v input context w = (Rejected err, w2) ->
  run (v :: post) input context w = (Rejected err, w2).
Proof. intros Hv. by rewrite run_cons, Hv. Qed.

Section NoIsSuccess.
Hypothesis Hnone : reads_no_isSuccess isSuccess.

(** Without a truthy [isSuccess] the first turn of the loop returns. *)
Lemma run_returns_first (v : Validator) (vs : list Validator)
    input context w :
  run (v :: vs) input context w = validate v input context w.
Proof.
  rewrite run_cons.
  destruct (validate v input context w) as [[r|err] w1]; [|done].
  by rewrite Hnone.
Qed.
End NoIsSuccess.

Section Sound.
Hypothesis Hsound : isSuccess_sound isSuccess value.

Lemma run_single (v : Validator) input context w :
  run [v] input context w = validate v input context w.
Proof.
  rewrite run_cons.
  destruct (validate v input context w) as [[r|err] w1]; [|done].
  destruct (isSuccess r) eqn:Hr; [|done].
  by rewrite (Hsound r Hr) at 2.
Qed.

(** The run settles as one of its validators did. *)
Lemma run_from_validator (vs : list Validator) context :
  vs <> [] ->
  forall input w,
    exists v x w0,
      In v vs /\ run vs input context w = validate v x context w0.
Proof.
  induction vs as [|v vs IH]; [done|]. intros _ input w.
  destruct vs as [|v' vs].
  - exists v, input, w. split; [by left|apply run_single].
  - rewrite run_cons.
    destruct (validate v input context w) as [[r|err] w1] eqn:Hv.
    + destruct (isSuccess r).
      * destruct (IH ltac:(done) (value r) w1) as (u & x & w0 & Hin & Hrun).
        exists u, x, w0. split; [by right|done].
      * exists v, input, w. split; [by left|done].
    + exists v, input, w. split; [by left|done].
Qed.
End Sound.

Section FlagAndPayload.
Hypothesis Hreads : reads_flag_and_payload isSuccess value.

Lemma run_cons_flag (v : Validator) (vs : list Validator) input context w :
  run (v :: vs) input context w
  = match validate v input context w with
    | (Fulfilled (Success y), w1) => run vs y context w1
    | (Fulfilled (Failure e), w1) => (Fulfilled (Failure e), w1)
    | (Rejected err, w1) => (Rejected err, w1)
    end.
Proof.
  rewrite run_cons. destruct Hreads as [Hok Hko].
  destruct (validate v input context w) as [[[y|e]|err] w1]; [| |done].
  - destruct (Hok y) as [-> ->]. done.
  - by rewrite Hko.
Qed.

(** A prefix of validators that all succeed only moves the loop variable
    and the world forward. *)
Lemma run_feed (pre rest : list Validator) context :
  forall input w y w1,
    feed context pre input w = Some (y, w1) ->
    run (pre ++ rest) input context w = run rest y context w1.
Proof.
  induction pre as [|v pre IH]; intros input w y w1 Hfeed.
  - by injection Hfeed as -> ->.
  - change ((v :: pre) ++ rest) with (v :: (pre ++ rest)).
    rewrite run_cons_flag. simpl in Hfeed.
    destruct (validate v input context w) as [[[x|e]|err] w'];
      try discriminate.
    by apply IH.
Qed.

(** The run over [vs1 ++ vs2] is the run over [vs1] followed, when it
    succeeds, by the run over [vs2] on its output. *)
Lemma run_app (vs1 vs2 : list Validator) context :
  forall input w,
    run (vs1 ++ vs2) input context w
    = match run vs1 input context w with
      | (Fulfilled (Success y), w1) => run vs2 y context w1
      | (Fulfilled (Failure e), w1) => (Fulfilled (Failure e), w1)
      | (Rejected err, w1) => (Rejected err, w1)
      end.
Proof.
  induction vs1 as [|v vs1 IH]; intros input w.
  - reflexivity.
  - change ((v :: vs1) ++ vs2) with (v :: (vs1 ++ vs2)).
    rewrite !run_cons_flag.
    destruct (validate v input context w) as [[[y|e]|err] w1];
      [apply IH|done..].
Qed.

(** A validator that rejects ends the run with its rejection. *)
Lemma run_rejected (pre post : list Validator) (v : Validator) context :
  forall input w y w1 err w2,
    feed context pre input w = Some (y, w1) ->
    validate v y context w1 = (Rejected err, w2) ->
    run (pre ++ v :: post) input context w = (Rejected err, w2).
Proof.
  intros input w y w1 err w2 Hfeed Hv.
  rewrite (run_feed _ _ _ _ _ _ _ Hfeed), run_cons_flag. by rewrite Hv.
Qed.

(** A failing validator ends the run with its own result, whatever is
    attached after it. *)
Lemma run_failure (pre post : list Validator) (v : Validator) context :
  forall input w y w1 e w2,
    feed context pre input w = Some (y, w1) ->
    validate v y context w1 = (Fulfilled (Failure e), w2) ->
    run (pre ++ v :: post) input context w = (Fulfilled (Failure e), w2).
Proof.
  intros input w y w1 e w2 Hfeed Hv.
  rewrite (run_feed _ _ _ _ _ _ _ Hfeed), run_cons_flag. by rewrite Hv.
Qed.

Lemma run_success (vs : list Validator) context :
  forall input w y w',
    feed context vs input w = Some (y, w') ->
    run vs input context w = (Fulfilled (Success y), w').
Proof.
  intros input w y w' Hfeed.
  rewrite <- (app_nil_r vs). by rewrite (run_feed _ _ _ _ _ _ _ Hfeed).
Qed.
End FlagAndPayload.

(** Either every attached validator succeeds, or there is a first one
    that does not: the two cases of the contract leave out only a
    validator that rejects (throws). *)
Lemma feed_or_first_stop (context : IFlowContext) (vs : list Validator) :
  forall x w,
    (exists y w', feed context vs x w = Some (y, w'))
    \/ (exists pre v post y w1,
          vs = pre ++ v :: post
          /\ feed context pre x w = Some (y, w1)
          /\ forall z w2, validate v y context w1 <> (Fulfilled (Success z), w2)).
Proof.
  induction vs as [|v vs IH]; intros x w.
  - left. by exists x, w.
  - destruct (validate v x context w) as [[[x'|e]|r] w'] eqn:Hv.
    + destruct (IH x' w') as [(y & w2 & H)|(pre & v' & post & y & w1 & -> & Hp & Hn)].
      * left. exists y, w2. simpl. by rewrite Hv.
      * right. exists (v :: pre), v', post, y, w1. simpl. by rewrite Hv.
    + right. exists [], v, vs, x, w. simpl. rewrite Hv. by repeat split.
    + right. exists [], v, vs, x, w. simpl. rewrite Hv. by repeat split.
Qed.

(** Every outcome of a run is accounted for by the attached validators. *)
Lemma run_outcome (vs : list Validator) context input w :
  reads_flag_and_payload isSuccess value ->
  (exists y w',
     feed context vs input w = Some (y, w')
     /\ run vs input context w = (Fulfilled (Success y), w'))
  \/ (exists pre v post y w1 e w2,
        vs = pre ++ v :: post
        /\ feed context pre input w = Some (y, w1)
        /\ validate v y context w1 = (Fulfilled (Failure e), w2)
        /\ run vs input context w = (Fulfilled (Failure e), w2))
  \/ (exists pre v post y w1 err w2,
        vs = pre ++ v :: post
        /\ feed context pre input w = Some (y, w1)
        /\ validate v y context w1 = (Rejected err, w2)
        /\ run vs input context w = (Rejected err, w2)).
Proof.
  intros Hreads.
  destruct (feed_or_first_stop context vs input w)
    as [(y & w' & Hfeed)|(pre & v & post & y & w1 & -> & Hfeed & Hstop)].
  - left. exists y, w'. split; [done|by apply run_success].
  - destruct (validate v y context w1) as [[[z|e]|err] w2] eqn:Hv.
    + by destruct (Hstop z w2).
    + right; left. exists pre, v, post, y, w1, e, w2.
      repeat split; try done. by eapply run_failure.
    + right; right. exists pre, v, post, y, w1, err, w2.
      repeat split; try done. by eapply run_rejected.
Qed.
End Loop.

(** Both readings of the two properties are sound ones. *)
Lemma reads_flag_and_payload_sound {T} (isSuccess : FlowResult T -> bool)
    (value : FlowResult T -> T) :
  reads_flag_and_payload isSuccess value -> isSuccess_sound isSuccess value.
Proof.
  intros [Hok Hko] [v|e] Hr.
  - by destruct (Hok v) as [_ ->].
  - rewrite Hko in Hr. discriminate Hr.
Qed.

Lemma reads_no_isSuccess_sound {T} (isSuccess : FlowResult T -> bool)
    (value : FlowResult T -> T) :
  reads_no_isSuccess isSuccess -> isSuccess_sound isSuccess value.
Proof. intros Hnone r Hr. rewrite Hnone in Hr. discriminate Hr. Qed.

(** The flag [result.success] of the test suite, with the payload beside
    it, is a reading of the first kind. *)
Lemma result_success_reads_flag {T} (d : T) :
  reads_flag_and_payload result_success (payload_or d).
Proof. by split. Qed.

(** ** C1: what [validatePipeline] does with the attached validators *)




(** The same run with the spy in front, the flag and the payload behind
    [isSuccess] and [value]: the spy is invoked once, before the failure. *)
Example spy_counts_invocations :
  exists p,
    StringValidationPipeline.validatePipeline
      result_success (payload_or (js "")) 1%positive (js "x") tt
      ({[ 1%positive :=
            mkPipeline (js "string-pipeline") (js "String Validation Pipeline")
              [ spy (js "v1");
                EmailValidator.new asciiToLowerCase;
                spy (js "v3") ] ]}
         : gmap ref (PipelineObject unit nat JsString))
    = Some p
    /\ snd (p 0%nat) = 1%nat.
Proof. by eexists. Qed.

(** ** C2: conditional validation *)

(** C2.  For [TestConditionalValidator] and [ConditionalEmailValidator]:
    when the predicate settles on [false], [validateConditionally] returns
    success with the input unchanged; when it settles on [true], it returns
    what the wrapped validation returns.  The predicate of
    [TestConditionalValidator] is false on the empty string and true on
    every other one; that validator returns success with [""] on [""] and
    success with ["x"], the trimmed input, on [" x "]. *)
Theorem validateConditionally_gates {IFlowContext World : Type}
    (toLowerCase : JsString -> JsString)
    (input : JsString) (context : IFlowContext) (w : World) :
  (forall w',
     TestConditionalValidator.shouldValidate input context w
     = (Fulfilled false, w') ->
     TestConditionalValidator.validateConditionally input context w
     = (Fulfilled (Success input), w'))
  /\ (forall w',
        TestConditionalValidator.shouldValidate input context w
        = (Fulfilled true, w') ->
        TestConditionalValidator.validateConditionally input context w
        = TestConditionalValidator.wrapped input context w')
  /\ (forall w',
        ConditionalEmailValidator.shouldValidate input context w
        = (Fulfilled false, w') ->
        ConditionalEmailValidator.validateConditionally toLowerCase
          input context w
        = (Fulfilled (Success input), w'))
  /\ (forall w',
        ConditionalEmailValidator.shouldValidate input context w
        = (Fulfilled true, w') ->
        ConditionalEmailValidator.validateConditionally toLowerCase
          input context w
        = ConditionalEmailValidator.wrapped toLowerCase input context w')
  /\ TestConditionalValidator.shouldValidate input context w
     = (Fulfilled (negb (bool_decide (input = []))), w)
  /\ TestConditionalValidator.validateConditionally (js "") context w
     = (Fulfilled (Success (js "")), w)
  /\ TestConditionalValidator.wrapped (js " x ") context w
     = (Fulfilled (Success (js "x")), w)
  /\ TestConditionalValidator.validateConditionally (js " x ") context w
     = (Fulfilled (Success (js "x")), w).
Proof.
  repeat split; try reflexivity.
  - unfold TestConditionalValidator.validateConditionally, await.
    intros w' ->. reflexivity.
  - unfold TestConditionalValidator.validateConditionally, await.
    intros w' ->. reflexivity.
  - unfold ConditionalEmailValidator.validateConditionally, await.
    intros w' ->. reflexivity.
  - unfold ConditionalEmailValidator.validateConditionally, await.
    intros w' ->. reflexivity.
  - unfold TestConditionalValidator.shouldValidate, resolve.
    by destruct input.
Qed.

(** On ["a@b"] the predicate of [ConditionalEmailValidator] holds, so the
    e-mail validation decides: the input has no dot after the [@] and is
    refused. *)
Lemma validateConditionally_gates_witness :
  ConditionalEmailValidator.shouldValidate (js "a@b") tt tt
  = (Fulfilled true, tt)
  /\ ConditionalEmailValidator.validateConditionally asciiToLowerCase
       (js "a@b") tt tt
     = (Fulfilled
          (Failure (flowError (js "INVALID_EMAIL")
                      (js "Invalid email format") None)), tt).
Proof.
  split; [reflexivity|].
  refine (proj1 (proj2 (proj2 (proj2
    (validateConditionally_gates asciiToLowerCase (js "a@b") tt tt)))) tt _).
  reflexivity.
Defined.

(** ** The state of a pipeline object *)

Section PipelineState.
Context {IFlowContext World Any : Type}.
Local Abbreviation Heap := (gmap ref (PipelineObject IFlowContext World Any)).
Local Abbreviation Validator := (IFlowValidator IFlowContext World Any Any).

(** The two classes declare the same [addValidator] and the same
    [getPipelineInfo]. *)
Lemma TestValidationPipeline_addValidator_eq :
  @TestValidationPipeline.addValidator IFlowContext World Any
  = @StringValidationPipeline.addValidator IFlowContext World Any.
Proof. reflexivity. Qed.

Lemma TestValidationPipeline_getPipelineInfo_eq :
  @TestValidationPipeline.getPipelineInfo IFlowContext World Any
  = @StringValidationPipeline.getPipelineInfo IFlowContext World Any.
Proof. reflexivity. Qed.

Lemma addValidator_live (σ : Heap) this o (v : Validator) :
  σ !! this = Some o ->
  StringValidationPipeline.addValidator this v σ
  = Some (this, <[this := push_validator o v]> σ).
Proof.
  intros Hthis. unfold StringValidationPipeline.addValidator.
  by rewrite Hthis.
Qed.

Lemma getPipelineInfo_live (σ : Heap) this o :
  σ !! this = Some o ->
  StringValidationPipeline.getPipelineInfo this σ
  = Some (mkPipelineInfo (length (validators o))
            (List.map (fun v => id v) (validators o))).
Proof.
  intros Hthis. unfold StringValidationPipeline.getPipelineInfo.
  by rewrite Hthis.
Qed.

Lemma getPipelineInfo_Some (σ : Heap) this info :
  StringValidationPipeline.getPipelineInfo this σ = Some info ->
  exists o,
    σ !! this = Some o
    /\ validatorCount info = length (validators o)
    /\ validatorIds info = List.map (fun v => id v) (validators o).
Proof.
  unfold StringValidationPipeline.getPipelineInfo.
  destruct (σ !! this) as [o|]; [|discriminate].
  intros [= <-]. by exists o.
Qed.

(** One call: the count goes up by one and the new identifier comes last. *)
Lemma getPipelineInfo_after_addValidator (σ : Heap) this (v : Validator) info :
  StringValidationPipeline.getPipelineInfo this σ = Some info ->
  exists σ',
    StringValidationPipeline.addValidator this v σ = Some (this, σ')
    /\ StringValidationPipeline.getPipelineInfo this σ'
       = Some (mkPipelineInfo (S (validatorCount info))
                 (validatorIds info ++ [id v])).
Proof.
  intros (o & Hthis & Hcount & Hids)%getPipelineInfo_Some.
  eexists; split; [by apply addValidator_live|].
  erewrite getPipelineInfo_live by apply lookup_insert_eq.
  simpl. rewrite Hcount, Hids, length_app, List.map_app. simpl.
  do 2 f_equal. lia.
Qed.

(** A chain of calls leaves the receiver with the validators it had,
    followed by the attached ones in call order, and every other object
    as it was. *)
Lemma attach_live (vs : list Validator) :
  forall (σ : Heap) this o,
    σ !! this = Some o ->
    exists σ',
      attach StringValidationPipeline.addValidator this vs σ = Some (this, σ')
      /\ σ' !! this
         = Some (mkPipeline (pipeline_id o) (pipeline_name o)
                   (validators o ++ vs))
      /\ forall l, l <> this -> σ' !! l = σ !! l.
Proof.
  induction vs as [|v vs IH]; intros σ this o Hthis; simpl.
  - exists σ. rewrite app_nil_r. by destruct o.
  - rewrite (addValidator_live _ _ _ _ Hthis).
    destruct (IH (<[this := push_validator o v]> σ) this
                (push_validator o v)) as (σ' & Hrun & Hobj & Hframe).
    { apply lookup_insert_eq. }
    exists σ'. split; [done|]. split.
    + rewrite Hobj. simpl. by rewrite <- app_assoc.
    + intros l Hl. rewrite Hframe by done. by apply lookup_insert_ne.
Qed.

Lemma new_fresh (σ : Heap) :
  σ !! (StringValidationPipeline.new σ).1 = None
  /\ (StringValidationPipeline.new σ).2 !! (StringValidationPipeline.new σ).1
     = Some (mkPipeline (js "string-pipeline")
               (js "String Validation Pipeline") []).
Proof.
  unfold StringValidationPipeline.new. simpl. split.
  - apply not_elem_of_dom, is_fresh.
  - apply lookup_insert_eq.
Qed.

Lemma TestValidationPipeline_new_fresh (σ : Heap) :
  σ !! (TestValidationPipeline.new σ).1 = None
  /\ (TestValidationPipeline.new σ).2 !! (TestValidationPipeline.new σ).1
     = Some (mkPipeline (js "test-pipeline") (js "Test Pipeline") []).
Proof.
  unfold TestValidationPipeline.new. simpl. split.
  - apply not_elem_of_dom, is_fresh.
  - apply lookup_insert_eq.
Qed.

(** From a new pipeline, attaching [vs] gives the count and the
    identifiers of [vs], in call order. *)
Lemma getPipelineInfo_after_attach (σ : Heap) this o (vs : list Validator) :
  σ !! this = Some o ->
  validators o = [] ->
  exists σ',
    attach StringValidationPipeline.addValidator this vs σ = Some (this, σ')
    /\ StringValidationPipeline.getPipelineInfo this σ'
       = Some (mkPipelineInfo (length vs) (List.map (fun v => id v) vs)).
Proof.
  intros Hthis Hempty.
  destruct (attach_live vs σ this o Hthis) as (σ' & Hrun & Hobj & _).
  exists σ'. split; [done|].
  rewrite (getPipelineInfo_live _ _ _ Hobj). simpl. by rewrite Hempty.
Qed.
End PipelineState.

(** ** C4: [getPipelineInfo] follows [addValidator] *)

(** C4.  For both pipeline classes: [getPipelineInfo] returns the number of
    attached validators and their identifiers in attachment order, as they
    are at the time of the call.  A call to [addValidator] takes the count
    up by exactly one and puts the new validator's identifier at the end
    of [validatorIds]; starting from a new pipeline, attaching validators
    gives their count and their identifiers in call order. *)
Theorem getPipelineInfo_tracks_addValidator {IFlowContext World Any : Type}
    (σ : gmap ref (PipelineObject IFlowContext World Any)) (this : ref)
    (v : IFlowValidator IFlowContext World Any Any)
    (vs : list (IFlowValidator IFlowContext World Any Any))
    (info : PipelineInfo) :
  (StringValidationPipeline.getPipelineInfo this σ = Some info ->
   validatorCount info = length (validatorIds info)
   /\ exists σ',
        StringValidationPipeline.addValidator this v σ = Some (this, σ')
        /\ StringValidationPipeline.getPipelineInfo this σ'
           = Some (mkPipelineInfo (S (validatorCount info))
                     (validatorIds info ++ [id v])))
  /\ (TestValidationPipeline.getPipelineInfo this σ = Some info ->
      validatorCount info = length (validatorIds info)
      /\ exists σ',
           TestValidationPipeline.addValidator this v σ = Some (this, σ')
           /\ TestValidationPipeline.getPipelineInfo this σ'
              = Some (mkPipelineInfo (S (validatorCount info))
                        (validatorIds info ++ [id v])))
  /\ StringValidationPipeline.getPipelineInfo
       (StringValidationPipeline.new σ).1 (StringValidationPipeline.new σ).2
     = Some (mkPipelineInfo 0 [])
  /\ TestValidationPipeline.getPipelineInfo
       (TestValidationPipeline.new σ).1 (TestValidationPipeline.new σ).2
     = Some (mkPipelineInfo 0 [])
  /\ (exists σ',
        attach StringValidationPipeline.addValidator
          (StringValidationPipeline.new σ).1 vs
          (StringValidationPipeline.new σ).2
        = Some ((StringValidationPipeline.new σ).1, σ')
        /\ StringValidationPipeline.getPipelineInfo
             (StringValidationPipeline.new σ).1 σ'
           = Some (mkPipelineInfo (length vs)
                     (List.map (fun v => id v) vs)))
  /\ (exists σ',
        attach TestValidationPipeline.addValidator
          (TestValidationPipeline.new σ).1 vs
          (TestValidationPipeline.new σ).2
        = Some ((TestValidationPipeline.new σ).1, σ')
        /\ TestValidationPipeline.getPipelineInfo
             (TestValidationPipeline.new σ).1 σ'
           = Some (mkPipelineInfo (length vs)
                     (List.map (fun v => id v) vs))).
Proof.
  change (@TestValidationPipeline.addValidator IFlowContext World Any)
    with (@StringValidationPipeline.addValidator IFlowContext World Any).
  change (@TestValidationPipeline.getPipelineInfo IFlowContext World Any)
    with (@StringValidationPipeline.getPipelineInfo IFlowContext World Any).
  assert (Hstep :
    StringValidationPipeline.getPipelineInfo this σ = Some info ->
    validatorCount info = length (validatorIds info)
    /\ exists σ',
         StringValidationPipeline.addValidator this v σ = Some (this, σ')
         /\ StringValidationPipeline.getPipelineInfo this σ'
            = Some (mkPipelineInfo (S (validatorCount info))
                      (validatorIds info ++ [id v]))).
  { intros Hinfo. split.
    - apply getPipelineInfo_Some in Hinfo as (o & _ & -> & ->).
      by rewrite length_map.
    - by apply getPipelineInfo_after_addValidator. }
  destruct (new_fresh σ) as [_ Hnew].
  destruct (TestValidationPipeline_new_fresh σ) as [_ HnewT].
  repeat split; try (by apply Hstep).
  - by rewrite (getPipelineInfo_live _ _ _ Hnew).
  - by rewrite (getPipelineInfo_live _ _ _ HnewT).
  - by apply (getPipelineInfo_after_attach _ _ _ vs Hnew).
  - by apply (getPipelineInfo_after_attach _ _ _ vs HnewT).
Qed.

(** Starting empty, after adding the identifiers ["a"] then ["b"]:
    the count is 1 then 2, and [validatorIds] is [["a"; "b"]]. *)
Lemma getPipelineInfo_tracks_addValidator_witness :
  let fresh_pipeline :=
    StringValidationPipeline.new
      (∅ : gmap ref (PipelineObject unit unit JsString)) in
  StringValidationPipeline.getPipelineInfo fresh_pipeline.1 fresh_pipeline.2
  = Some (mkPipelineInfo 0 [])
  /\ (exists σ',
        StringValidationPipeline.addValidator fresh_pipeline.1
          (named (js "a")) fresh_pipeline.2
        = Some (fresh_pipeline.1, σ')
        /\ StringValidationPipeline.getPipelineInfo fresh_pipeline.1 σ'
           = Some (mkPipelineInfo 1 [js "a"]))
  /\ (exists σ',
        attach StringValidationPipeline.addValidator fresh_pipeline.1
          [named (js "a"); named (js "b")] fresh_pipeline.2
        = Some (fresh_pipeline.1, σ')
        /\ StringValidationPipeline.getPipelineInfo fresh_pipeline.1 σ'
           = Some (mkPipelineInfo 2 [js "a"; js "b"])).
Proof.
  intros fresh_pipeline.
  split; [reflexivity|]. split.
  - refine (proj2 (proj1
      (getPipelineInfo_tracks_addValidator
         fresh_pipeline.2 fresh_pipeline.1
         (named (js "a")) [] (mkPipelineInfo 0 [])) _)).
    reflexivity.
  - exact (proj1 (proj2 (proj2 (proj2 (proj2
      (getPipelineInfo_tracks_addValidator
         ∅ 1%positive (named (js "a"))
         [named (js "a"); named (js "b")] (mkPipelineInfo 0 []))))))).
Defined.

(** ** C9: [addValidator] returns its receiver *)

Section Receiver.
Context {IFlowContext World Any : Type}.
Local Abbreviation Heap := (gmap ref (PipelineObject IFlowContext World Any)).
Local Abbreviation Validator := (IFlowValidator IFlowContext World Any Any).

(** The identifiers [getPipelineInfo] reports once [v] then [v2] were
    attached to the object [o]. *)
Local Abbreviation info_after o v v2 :=
  (mkPipelineInfo (S (S (length (validators o))))
     (List.map (fun v => id v) (validators o) ++ [id v; id v2])).

Lemma getPipelineInfo_after_two (σ : Heap) this o (v v2 : Validator) σ2 :
  σ !! this = Some o ->
  StringValidationPipeline.addValidator this v2
    (<[this := push_validator o v]> σ) = Some (this, σ2) ->
  StringValidationPipeline.getPipelineInfo this σ2 = Some (info_after o v v2).
Proof.
  intros Hthis Hadd.
  rewrite (addValidator_live _ _ (push_validator o v)) in Hadd
    by apply lookup_insert_eq.
  injection Hadd as <-.
  erewrite getPipelineInfo_live by apply lookup_insert_eq.
  simpl. rewrite !length_app, !List.map_app, <- app_assoc. simpl.
  do 2 f_equal. lia.
Qed.

Lemma addValidator_receiver (σ : Heap) this o (v v2 : Validator) :
  σ !! this = Some o ->
  is_Some (StringValidationPipeline.addValidator this v σ)
  /\ forall r σ',
       StringValidationPipeline.addValidator this v σ = Some (r, σ') ->
       r = this
       /\ σ' = <[this := push_validator o v]> σ
       /\ dom σ' = dom σ
       /\ (forall r2 σ2,
             StringValidationPipeline.addValidator r v2 σ' = Some (r2, σ2) ->
             StringValidationPipeline.getPipelineInfo this σ2
             = Some (info_after o v v2))
       /\ (forall r2 σ2,
             StringValidationPipeline.addValidator this v2 σ' = Some (r2, σ2) ->
             StringValidationPipeline.getPipelineInfo r σ2
             = Some (info_after o v v2)).
Proof.
  intros Hthis. rewrite (addValidator_live _ _ _ _ Hthis).
  split; [by eexists|].
  intros r σ' [= <- <-]. repeat split.
  - by apply dom_insert_lookup_L.
  - intros r2 σ2 Hadd.
    assert (r2 = this) as ->.
    { rewrite (addValidator_live _ _ (push_validator o v)) in Hadd
        by apply lookup_insert_eq. by injection Hadd. }
    by apply (getPipelineInfo_after_two σ).
  - intros r2 σ2 Hadd.
    assert (r2 = this) as ->.
    { rewrite (addValidator_live _ _ (push_validator o v)) in Hadd
        by apply lookup_insert_eq. by injection Hadd. }
    by apply (getPipelineInfo_after_two σ).
Qed.
End Receiver.

(** C9.  For [StringValidationPipeline] and [TestValidationPipeline]:
    [addValidator] on a live pipeline returns the receiver itself and
    pushes onto the receiver's own array; it allocates no pipeline.  The
    returned reference and the original therefore share one state: a
    validator attached through either shows in [getPipelineInfo] called
    through the other. *)
Theorem addValidator_returns_receiver {IFlowContext World Any : Type}
    (σ : gmap ref (PipelineObject IFlowContext World Any)) (this : ref)
    (o : PipelineObject IFlowContext World Any)
    (v v2 : IFlowValidator IFlowContext World Any Any) :
  σ !! this = Some o ->
  (is_Some (StringValidationPipeline.addValidator this v σ)
   /\ forall r σ',
        StringValidationPipeline.addValidator this v σ = Some (r, σ') ->
        r = this
        /\ σ' = <[this := push_validator o v]> σ
        /\ dom σ' = dom σ
        /\ (forall r2 σ2,
              StringValidationPipeline.addValidator r v2 σ' = Some (r2, σ2) ->
              StringValidationPipeline.getPipelineInfo this σ2
              = Some (mkPipelineInfo (S (S (length (validators o))))
                        (List.map (fun v => id v) (validators o)
                           ++ [id v; id v2])))
        /\ (forall r2 σ2,
              StringValidationPipeline.addValidator this v2 σ'
              = Some (r2, σ2) ->
              StringValidationPipeline.getPipelineInfo r σ2
              = Some (mkPipelineInfo (S (S (length (validators o))))
                        (List.map (fun v => id v) (validators o)
                           ++ [id v; id v2]))))
  /\ (is_Some (TestValidationPipeline.addValidator this v σ)
      /\ forall r σ',
           TestValidationPipeline.addValidator this v σ = Some (r, σ') ->
           r = this
           /\ σ' = <[this := push_validator o v]> σ
           /\ dom σ' = dom σ
           /\ (forall r2 σ2,
                 TestValidationPipeline.addValidator r v2 σ' = Some (r2, σ2) ->
                 TestValidationPipeline.getPipelineInfo this σ2
                 = Some (mkPipelineInfo (S (S (length (validators o))))
                           (List.map (fun v => id v) (validators o)
                              ++ [id v; id v2])))
           /\ (forall r2 σ2,
                 TestValidationPipeline.addValidator this v2 σ'
                 = Some (r2, σ2) ->
                 TestValidationPipeline.getPipelineInfo r σ2
                 = Some (mkPipelineInfo (S (S (length (validators o))))
                           (List.map (fun v => id v) (validators o)
                              ++ [id v; id v2])))).
Proof.
  intros Hthis.
  change (@TestValidationPipeline.addValidator IFlowContext World Any)
    with (@StringValidationPipeline.addValidator IFlowContext World Any).
  change (@TestValidationPipeline.getPipelineInfo IFlowContext World Any)
    with (@StringValidationPipeline.getPipelineInfo IFlowContext World Any).
  split; by apply addValidator_receiver.
Qed.

(** [const p = new TestValidationPipeline(); const q = p.addValidator(a);
    q.addValidator(b); p.getPipelineInfo()] reports both [a] and [b]. *)
Lemma addValidator_returns_receiver_witness :
  let fresh_pipeline :=
    TestValidationPipeline.new
      (∅ : gmap ref (PipelineObject unit unit JsString)) in
  fresh_pipeline.2 !! fresh_pipeline.1
  = Some (mkPipeline (js "test-pipeline") (js "Test Pipeline") [])
  /\ forall q σ1,
       TestValidationPipeline.addValidator fresh_pipeline.1
         (named (js "a")) fresh_pipeline.2 = Some (q, σ1) ->
       q = fresh_pipeline.1
       /\ forall r2 σ2,
            TestValidationPipeline.addValidator q (named (js "b")) σ1
            = Some (r2, σ2) ->
            TestValidationPipeline.getPipelineInfo fresh_pipeline.1 σ2
            = Some (mkPipelineInfo 2 [js "a"; js "b"]).
Proof.
  intros fresh_pipeline.
  split; [reflexivity|].
  intros q σ1 Hadd.
  destruct (proj2 (proj2
    (addValidator_returns_receiver fresh_pipeline.2 fresh_pipeline.1
       (mkPipeline (js "test-pipeline") (js "Test Pipeline") [])
       (named (js "a")) (named (js "b")) eq_refl)) q σ1 Hadd)
    as (Hq & _ & _ & Hshared & _).
  split; [exact Hq|].
  intros r2 σ2 Hadd2. exact (Hshared r2 σ2 Hadd2).
Defined.

(** ** C5 and C10: the concrete validators *)

Lemma success_one_of {T} (v : T) : one_of_success_or_failure (Success v).
Proof.
  left. split; [by exists v|]. intros [e He]. discriminate He.
Qed.

Lemma failure_one_of {T} (e : FlowError) :
  one_of_success_or_failure (@Failure T e).
Proof.
  right. split; [by exists e|]. intros [v Hv]. discriminate Hv.
Qed.

Lemma one_of_success_or_failure_total {T} (r : FlowResult T) :
  one_of_success_or_failure r.
Proof. destruct r; [apply success_one_of | apply failure_one_of]. Qed.

(** C5.  For [EmailValidator], [NumberRangeValidator] and [TestValidator],
    every input, context and world: [validate] settles fulfilled, never by
    a thrown error, with a result that is exactly one of success and
    failure; an input the validator refuses (no e-mail shape, a number out
    of range) comes back as a failure value carrying the structured
    error. *)
Theorem validate_returns_result {IFlowContext World : Type}
    (toLowerCase toUpperCase : JsString -> JsString)
    (numberToString : float -> JsString) (min max : float)
    (s : JsString) (n : float) (context : IFlowContext) (w : World) :
  returns_result
    (validate (EmailValidator.new toLowerCase) s context) w
  /\ returns_result
       (validate (NumberRangeValidator.new numberToString min max) n context)
       w
  /\ returns_result
       (validate (TestValidator.new toUpperCase) s context) w
  /\ validate (EmailValidator.new toLowerCase) s context w
     = (Fulfilled
          (if test_anchored emailRegex s
           then Success (toLowerCase s)
           else Failure (flowError (js "INVALID_EMAIL")
                           (js "Invalid email format") None)), w)
  /\ (exists e,
        validate (NumberRangeValidator.new numberToString min max) n context w
        = (Fulfilled
             (if PrimFloat.leb min n && PrimFloat.leb n max
              then Success n else Failure e), w)
        /\ code e = js "OUT_OF_RANGE")
  /\ validate (TestValidator.new toUpperCase) s context w
     = (Fulfilled (Success (toUpperCase s)), w).
Proof.
  split; [|split; [|split; [|split; [|split]]]].
  - eexists _, w. split; [reflexivity|].
    apply one_of_success_or_failure_total.
  - simpl. unfold NumberRangeValidator.validate.
    destruct (PrimFloat.leb min n && PrimFloat.leb n max);
      eexists _, w; (split; [reflexivity|]);
      apply one_of_success_or_failure_total.
  - eexists _, w. split; [reflexivity|]. apply success_one_of.
  - reflexivity.
  - simpl. unfold NumberRangeValidator.validate.
    exists (flowError (js "OUT_OF_RANGE")
              (js "Number " ++ numberToString n ++ js " not in range "
                 ++ numberToString min ++ js "-" ++ numberToString max)
              (Some (NumberRangeValidator.RangeError
                 (js "Expected " ++ numberToString min ++ js "-"
                    ++ numberToString max ++ js ", got "
                    ++ numberToString n)))).
    split; [|reflexivity].
    by destruct (PrimFloat.leb min n && PrimFloat.leb n max).
  - reflexivity.
Qed.

(** C10.  For [EmailValidator], [NumberRangeValidator] and [TestValidator]:
    the result of [validate] is the same under any two contexts. *)
Theorem validate_ignores_context {IFlowContext World : Type}
    (toLowerCase toUpperCase : JsString -> JsString)
    (numberToString : float -> JsString) (min max : float)
    (s : JsString) (n : float) (c1 c2 : IFlowContext) (w : World) :
  validate (EmailValidator.new toLowerCase) s c1 w
  = validate (EmailValidator.new toLowerCase) s c2 w
  /\ validate (NumberRangeValidator.new numberToString min max) n c1 w
     = validate (NumberRangeValidator.new numberToString min max) n c2 w
  /\ validate (TestValidator.new toUpperCase) s c1 w
     = validate (TestValidator.new toUpperCase) s c2 w.
Proof. repeat split. Qed.

(** Two contexts that differ, here [true] and [false], on one refused and
    one accepted input of each validator. *)
Example validate_ignores_context_examples :
  validate (EmailValidator.new asciiToLowerCase) (js "A@b.c") true tt
  = (Fulfilled (Success (js "a@b.c")), tt)
  /\ validate (EmailValidator.new asciiToLowerCase) (js "A@b.c") false tt
     = (Fulfilled (Success (js "a@b.c")), tt)
  /\ validate (TestValidator.new asciiToUpperCase) (js "hello") true tt
     = (Fulfilled (Success (js "HELLO")), tt)
  /\ (exists e,
        validate (NumberRangeValidator.new (fun _ => js "n") 1%float 10%float)
          11%float true tt
        = (Fulfilled (Failure e), tt)
        /\ validate (NumberRangeValidator.new (fun _ => js "n") 1%float 10%float)
             11%float false tt
           = (Fulfilled (Failure e), tt))
  /\ validate (NumberRangeValidator.new (fun _ => js "n") 1%float 10%float)
       nan true tt
     = validate (NumberRangeValidator.new (fun _ => js "n") 1%float 10%float)
         nan false tt.
Proof. repeat split. eexists. split; reflexivity. Qed.

(** ** C7: [getSchemaRules] *)

(** C7.  For [TestSchema] and [UserSchema]: [getSchemaRules] is a
    synchronous call that leaves the world as it found it and returns the
    same mapping at every call, in whatever world it is made. *)
Theorem getSchemaRules_pure {IFlowContext World : Type} (w w' : World) :
  (getSchemaRules (TestSchema.new (IFlowContext := IFlowContext)) w).2 = w
  /\ (getSchemaRules (TestSchema.new (IFlowContext := IFlowContext)) w).1
     = (getSchemaRules (TestSchema.new (IFlowContext := IFlowContext)) w').1
  /\ (getSchemaRules (TestSchema.new (IFlowContext := IFlowContext)) w).1
     = [ (js "type", VString (js "object")); (js "required", VArray []) ]
  /\ (getSchemaRules (UserSchema.new (IFlowContext := IFlowContext)) w).2 = w
  /\ (getSchemaRules (UserSchema.new (IFlowContext := IFlowContext)) w).1
     = (getSchemaRules (UserSchema.new (IFlowContext := IFlowContext)) w').1
  /\ get_property
       (getSchemaRules (UserSchema.new (IFlowContext := IFlowContext)) w).1
       (js "type")
     = VString (js "object").
Proof. repeat split. Qed.

(** ** C6: presence of [data] in a validation result *)

(** C6 (as stated) fails on the declared shape: [data?] is optional
    whatever [isValid] says, so a valid result without data and an invalid
    result with data are both values of [IFlowValidationResult<string>]. *)
Lemma data_not_tied_to_isValid :
  ~ data_iff_valid
      (mkValidationResult true (None : option JsString) [] []
         (mkMetadata (js "test-validator") None []))
  /\ ~ data_iff_valid
         (mkValidationResult false (Some (js "validated-data")) [] []
            (mkMetadata (js "test-validator") None [])).
Proof.
  unfold data_iff_valid. simpl. split.
  - intros [_ H]. destruct (H eq_refl) as [x Hx]. discriminate Hx.
  - intros [H _]. discriminate H. by eexists.
Qed.

(** C6 (as amended).  The one validation result the repository constructs
    is valid and carries its data; the shape itself leaves the two fields
    independent: every combination of [isValid] and of a present or absent
    [data] is a value of it. *)
Theorem data_optional_in_shape :
  data_iff_valid test_validation_result
  /\ isValid test_validation_result = true
  /\ data test_validation_result = Some (js "validated-data")
  /\ forall (TOutput : Type) (b : bool) (d : option TOutput)
       (m : ValidationMetadata),
       exists r : IFlowValidationResult TOutput,
         isValid r = b /\ data r = d /\ errors r = [] /\ warnings r = []
         /\ metadata r = m.
Proof.
  repeat split.
  - by eexists.
  - intros TOutput b d m. by exists (mkValidationResult b d [] [] m).
Qed.

(** ** C3: what [build] makes of the declared rules *)

(** C3 (as stated) fails on [TestValidationBuilder]: after
    [required().type("string")] the builder holds both rules, yet [build]
    returns the validator a builder without any rule builds, and that
    validator accepts the empty string. *)
Lemma build_drops_declared_rules :
  TestValidationBuilder.rules
    (TestValidationBuilder.type (js "string")
       (TestValidationBuilder.required TestValidationBuilder.new))
  = [js "required"; js "type:string"]
  /\ TestValidationBuilder.build (IFlowContext := unit) (World := unit)
       asciiToUpperCase
       (TestValidationBuilder.type (js "string")
          (TestValidationBuilder.required TestValidationBuilder.new))
     = TestValidationBuilder.build asciiToUpperCase TestValidationBuilder.new
  /\ validate
       (TestValidationBuilder.build (IFlowContext := unit) (World := unit)
          asciiToUpperCase
          (TestValidationBuilder.type (js "string")
             (TestValidationBuilder.required TestValidationBuilder.new)))
       (js "") tt tt
     = (Fulfilled (Success (js "")), tt)
  /\ ~ keeps_declared_rules
         (TestValidationBuilder.build (IFlowContext := unit) (World := unit)
            asciiToUpperCase).
Proof.
  repeat split.
  intros Hkeeps.
  apply (Hkeeps
    (TestValidationBuilder.type (js "string")
       (TestValidationBuilder.required TestValidationBuilder.new)));
    [discriminate | reflexivity].
Qed.

(** C3 (as amended).  Every fluent call of [TestValidationBuilder] appends
    its rule to the rules declared so far, in call order, and returns the
    receiver; [build] returns a [TestValidator], identifier
    ["test-validator"] and name ["Test Validator"], whatever rules were
    declared. *)
Theorem build_returns_TestValidator {IFlowContext World TOutput : Type}
    (toUpperCase : JsString -> JsString)
    (b : TestValidationBuilder.t) (expectedType : JsString)
    (validator : IFlowValidator IFlowContext World JsString TOutput) :
  TestValidationBuilder.rules TestValidationBuilder.new = []
  /\ TestValidationBuilder.rules (TestValidationBuilder.required b)
     = TestValidationBuilder.rules b ++ [js "required"]
  /\ TestValidationBuilder.rules (TestValidationBuilder.type expectedType b)
     = TestValidationBuilder.rules b ++ [js "type:" ++ expectedType]
  /\ TestValidationBuilder.rules (TestValidationBuilder.custom validator b)
     = TestValidationBuilder.rules b ++ [js "custom:" ++ id validator]
  /\ TestValidationBuilder.build (IFlowContext := IFlowContext)
       (World := World) toUpperCase b
     = TestValidator.new toUpperCase
  /\ id (TestValidationBuilder.build (IFlowContext := IFlowContext)
           (World := World) toUpperCase b) = js "test-validator"
  /\ name (TestValidationBuilder.build (IFlowContext := IFlowContext)
             (World := World) toUpperCase b) = js "Test Validator".
Proof. repeat split. Qed.

(** ** The matcher decides the language of its pattern *)

Lemma nullable_matches (r : regex) : nullable r = true <-> matches r [].
Proof.
  split.
  - induction r; simpl; intros H; try discriminate.
    + constructor.
    + apply andb_prop in H as [H1 H2].
      change (@nil N) with (@nil N ++ []). constructor; auto.
    + apply orb_prop in H as [H|H];
        [apply matches_alt_l | apply matches_alt_r]; auto.
    + constructor.
  - intros H. remember [] as s eqn:Hs.
    induction H; simpl; try done.
    + apply app_eq_nil in Hs as [-> ->].
      by rewrite IHmatches1, IHmatches2.
    + by rewrite IHmatches.
    + rewrite IHmatches by done. apply orb_true_r.
Qed.

Lemma matches_seq_inv (r1 r2 : regex) (s : JsString) :
  matches (ReSeq r1 r2) s ->
  exists s1 s2, s = s1 ++ s2 /\ matches r1 s1 /\ matches r2 s2.
Proof. intros H. inversion H; subst. by eexists _, _. Qed.

Lemma matches_class_inv (p : N -> bool) (s : JsString) :
  matches (ReClass p) s -> exists c, s = [c] /\ p c = true.
Proof. intros H. inversion H; subst. by eexists. Qed.

(** Every word of a starred pattern that starts with [c] splits into a word
    of the pattern starting with [c] and a word of the star. *)
Lemma matches_star_cons_inv (r : regex) (c : N) (s : JsString) :
  matches (ReStar r) (c :: s) ->
  exists s1 s2,
    s = s1 ++ s2 /\ matches r (c :: s1) /\ matches (ReStar r) s2.
Proof.
  intros H. remember (ReStar r) as r' eqn:Hr. remember (c :: s) as cs eqn:Hcs.
  revert c s Hcs.
  induction H; intros c0 s0 Hcs; try discriminate.
  injection Hr as ->.
  destruct s1 as [|c1 s1]; simpl in Hcs.
  - by apply IHmatches2.
  - injection Hcs as -> <-. by exists s1, s2.
Qed.

Lemma deriv_matches (r : regex) :
  forall c s, matches (deriv c r) s <-> matches r (c :: s).
Proof.
  induction r as [| |p|r1 IH1 r2 IH2|r1 IH1 r2 IH2|r IH]; intros c s; simpl.
  - split; inversion 1.
  - split; inversion 1.
  - destruct (p c) eqn:Hp; split; intros H; inversion H; subst.
    + by constructor.
    + constructor.
    + congruence.
  - assert (Hseq : matches (ReSeq (deriv c r1) r2) s
                   -> matches (ReSeq r1 r2) (c :: s)).
    { intros H. inversion H; subst.
      change (c :: s1 ++ s2) with ((c :: s1) ++ s2).
      constructor; [by apply IH1|done]. }
    assert (Hinv : matches (ReSeq r1 r2) (c :: s) ->
                   matches (ReSeq (deriv c r1) r2) s
                   \/ (matches r1 [] /\ matches (deriv c r2) s)).
    { intros (s1 & s2 & Heq & H1 & H2)%matches_seq_inv.
      destruct s1 as [|c1 s1]; simpl in Heq.
      - right. subst s2. split; [done|by apply IH2].
      - injection Heq as -> ->. left. constructor; [by apply IH1|done]. }
    destruct (nullable r1) eqn:Hnull.
    + split.
      * intros H. inversion H; subst; [by apply Hseq|].
        change (c :: s) with ([] ++ c :: s).
        constructor; [by apply nullable_matches|by apply IH2].
      * intros [H|[_ H]]%Hinv;
          [by apply matches_alt_l | by apply matches_alt_r].
    + split; [done|].
      intros [H|[H _]]%Hinv; [done|].
      apply nullable_matches in H. congruence.
  - split; intros H; inversion H; subst.
    + apply matches_alt_l. by apply IH1.
    + apply matches_alt_r. by apply IH2.
    + apply matches_alt_l. by apply IH1.
    + apply matches_alt_r. by apply IH2.
  - split.
    + intros H. inversion H; subst.
      change (c :: s1 ++ s2) with ((c :: s1) ++ s2).
      constructor; [by apply IH|done].
    + intros (s1 & s2 & -> & H1 & H2)%matches_star_cons_inv.
      constructor; [by apply IH|done].
Qed.

Lemma test_anchored_matches (s : JsString) :
  forall r, test_anchored r s = true <-> matches r s.
Proof.
  induction s as [|c s IH]; intros r; simpl.
  - apply nullable_matches.
  - rewrite IH. apply deriv_matches.
Qed.

(** [p+] matches the non-empty runs of units of the class [p]. *)
Lemma matches_star_class (p : N -> bool) (s : JsString) :
  matches (ReStar (ReClass p)) s <-> forallb p s = true.
Proof.
  split.
  - intros H. remember (ReStar (ReClass p)) as r eqn:Hr.
    induction H; try discriminate; [done|].
    injection Hr as ->. apply matches_class_inv in H as (c & -> & Hc).
    simpl. rewrite IHmatches2 by done. by rewrite Hc.
  - induction s as [|c s IH]; simpl; intros H; [constructor|].
    apply andb_prop in H as [Hc Hs].
    change (c :: s) with ([c] ++ s).
    constructor; [by constructor|by apply IH].
Qed.

Lemma matches_plus_class (p : N -> bool) (s : JsString) :
  matches (RePlus (ReClass p)) s <-> s <> [] /\ forallb p s = true.
Proof.
  unfold RePlus. split.
  - intros (s1 & s2 & -> & H1 & H2)%matches_seq_inv.
    apply matches_class_inv in H1 as (c & -> & Hc). split; [done|]. simpl.
    apply matches_star_class in H2. by rewrite H2, Hc.
  - intros [Hne H]. destruct s as [|c s]; [done|]. simpl in H.
    apply andb_prop in H as [Hc Hs].
    change (c :: s) with ([c] ++ s).
    constructor; [by constructor|by apply matches_star_class].
Qed.

Lemma matches_unit (c : N) (s : JsString) :
  matches (ReClass (N.eqb c)) s <-> s = [c].
Proof.
  split.
  - intros (c' & -> & Hc)%matches_class_inv. by apply N.eqb_eq in Hc as ->.
  - intros ->. constructor. apply N.eqb_refl.
Qed.

Lemma emailRegex_shape (s : JsString) :
  test_anchored emailRegex s = true <-> email_shape s.
Proof.
  rewrite test_anchored_matches. unfold emailRegex, email_shape, email_part.
  split.
  - intros (loc & s1 & -> & Hloc & H1)%matches_seq_inv.
    apply matches_seq_inv in H1 as (at_ & s2 & -> & Hat & H2).
    apply matches_seq_inv in H2 as (dom & s3 & -> & Hdom & H3).
    apply matches_seq_inv in H3 as (dot & tld & -> & Hdot & Htld).
    apply matches_unit in Hat as ->. apply matches_unit in Hdot as ->.
    exists loc, dom, tld.
    by rewrite <- !matches_plus_class.
  - intros (loc & dom & tld & -> & Hloc & Hdom & Htld).
    constructor; [by apply matches_plus_class|].
    constructor; [by apply matches_unit|].
    constructor; [by apply matches_plus_class|].
    constructor; [by apply matches_unit|by apply matches_plus_class].
Qed.

(** ** What the e-mail validators accept *)

Lemma email_part_no_at (s : JsString) :
  forallb notSpaceNorAt s = true ->
  List.filter (N.eqb 0x40) s = [] /\ existsb isWhiteSpace s = false.
Proof.
  induction s as [|c s IH]; [done|].
  cbn [forallb List.filter existsb].
  intros [Hc Hs]%andb_prop. destruct (IH Hs) as [-> ->].
  unfold notSpaceNorAt in Hc.
  apply negb_true_iff, orb_false_iff in Hc as [-> Hat].
  by rewrite (N.eqb_sym 0x40 c), Hat.
Qed.

Lemma EmailValidator_validate_by_shape {IFlowContext World : Type}
    (toLowerCase : JsString -> JsString)
    (s : JsString) (context : IFlowContext) (w : World) :
  (email_shape s ->
   validate (EmailValidator.new toLowerCase) s context w
   = (Fulfilled (Success (toLowerCase s)), w))
  /\ (~ email_shape s ->
      validate (EmailValidator.new toLowerCase) s context w
      = (Fulfilled
           (Failure (flowError (js "INVALID_EMAIL")
                       (js "Invalid email format") None)), w))
  /\ ((exists v w',
         validate (EmailValidator.new toLowerCase) s context w
         = (Fulfilled (Success v), w'))
      <-> email_shape s).
Proof.
  simpl. unfold EmailValidator.validate, resolve.
  pose proof (emailRegex_shape s) as Hshape.
  destruct (test_anchored emailRegex s).
  - assert (email_shape s) by by apply Hshape.
    repeat split; try done. by eexists _, _.
  - assert (~ email_shape s) by (intros H%Hshape; discriminate).
    repeat split; try done. intros (v & w' & Hv). discriminate Hv.
Qed.

(** X1.  [EmailValidator.validate] succeeds exactly on the inputs of the
    shape [local@domain.tld], where the three parts are non-empty and hold
    neither white space nor [@]; it then returns the lower-cased input.
    Every other input comes back as the failure [INVALID_EMAIL].  The world
    is left as it was in both cases. *)
Theorem EmailValidator_accepts_email_shape {IFlowContext World : Type}
    (toLowerCase : JsString -> JsString)
    (s : JsString) (context : IFlowContext) (w : World) :
  (email_shape s ->
   validate (EmailValidator.new toLowerCase) s context w
   = (Fulfilled (Success (toLowerCase s)), w))
  /\ (~ email_shape s ->
      validate (EmailValidator.new toLowerCase) s context w
      = (Fulfilled
           (Failure (flowError (js "INVALID_EMAIL")
                       (js "Invalid email format") None)), w))
  /\ ((exists v w',
         validate (EmailValidator.new toLowerCase) s context w
         = (Fulfilled (Success v), w'))
      <-> email_shape s).
Proof.
  apply EmailValidator_validate_by_shape.
Qed.

Lemma EmailValidator_accepts_email_shape_witness :
  email_shape (js "Ann.Lee@mail.example.org")
  /\ validate (EmailValidator.new asciiToLowerCase)
       (js "Ann.Lee@mail.example.org") tt tt
     = (Fulfilled (Success (js "ann.lee@mail.example.org")), tt).
Proof.
  assert (Hshape : email_shape (js "Ann.Lee@mail.example.org")).
  { exists (js "Ann.Lee"), (js "mail.example"), (js "org").
    repeat split; discriminate. }
  split; [exact Hshape|].
  exact (proj1 (EmailValidator_accepts_email_shape asciiToLowerCase
                  (js "Ann.Lee@mail.example.org") tt tt) Hshape).
Defined.

(** X2.  An input [EmailValidator.validate] accepts holds exactly one [@],
    no white space at all, and at least five code units. *)
Theorem EmailValidator_accepted_input {IFlowContext World : Type}
    (toLowerCase : JsString -> JsString)
    (s v : JsString) (context : IFlowContext) (w w' : World) :
  validate (EmailValidator.new toLowerCase) s context w
  = (Fulfilled (Success v), w') ->
  length (List.filter (N.eqb 0x40) s) = 1%nat
  /\ existsb isWhiteSpace s = false
  /\ (5 <= length s)%nat.
Proof.
  intros Hv.
  assert (email_shape s) as (loc & dom & tld & -> & [Hl Hloc] & [Hd Hdom] & [Ht Htld]).
  { apply (EmailValidator_validate_by_shape toLowerCase s context w).
    by exists v, w'. }
  destruct (email_part_no_at _ Hloc) as [Fl El].
  destruct (email_part_no_at _ Hdom) as [Fd Ed].
  destruct (email_part_no_at _ Htld) as [Ft Et].
  rewrite !List.filter_app, !existsb_app, !length_app, Fl, Fd, Ft, El, Ed, Et.
  repeat split.
  destruct loc, dom, tld; simpl; try done; lia.
Qed.

Lemma EmailValidator_accepted_input_witness :
  validate (EmailValidator.new asciiToLowerCase) (js "a@b.c") tt tt
  = (Fulfilled (Success (js "a@b.c")), tt)
  /\ length (List.filter (N.eqb 0x40) (js "a@b.c")) = 1%nat
  /\ existsb isWhiteSpace (js "a@b.c") = false
  /\ (5 <= length (js "a@b.c"))%nat.
Proof.
  split; [reflexivity|].
  apply (EmailValidator_accepted_input (IFlowContext := unit)
           asciiToLowerCase (js "a@b.c") (js "a@b.c") tt tt tt).
  reflexivity.
Defined.

Lemma email_shape_includes_at (s : JsString) :
  email_shape s -> includes s 0x40 = true.
Proof.
  intros (loc & dom & tld & -> & _). unfold includes.
  rewrite existsb_app. simpl. apply orb_true_r.
Qed.

(** X3.  [ConditionalEmailValidator] is a relaxation of [EmailValidator]:
    whatever the e-mail validator accepts, the conditional one accepts with
    the same value; it fails only on inputs that hold an [@] and do not
    have the e-mail shape; and an input without [@], which the e-mail
    validator refuses, passes through unchanged. *)
Theorem ConditionalEmailValidator_relaxes_EmailValidator
    {IFlowContext World : Type} (toLowerCase : JsString -> JsString)
    (s : JsString) (context : IFlowContext) (w : World) :
  (forall v w',
     validate (EmailValidator.new toLowerCase) s context w
     = (Fulfilled (Success v), w') ->
     ConditionalEmailValidator.validateConditionally toLowerCase s context w
     = (Fulfilled (Success v), w'))
  /\ (forall e w',
        ConditionalEmailValidator.validateConditionally toLowerCase s context w
        = (Fulfilled (Failure e), w') ->
        includes s 0x40 = true /\ ~ email_shape s
        /\ validate (EmailValidator.new toLowerCase) s context w
           = (Fulfilled (Failure e), w'))
  /\ (includes s 0x40 = false ->
      ConditionalEmailValidator.validateConditionally toLowerCase s context w
      = (Fulfilled (Success s), w)
      /\ exists e,
           validate (EmailValidator.new toLowerCase) s context w
           = (Fulfilled (Failure e), w)).
Proof.
  pose proof (EmailValidator_validate_by_shape toLowerCase s context w)
    as (Hyes & Hno & Hiff).
  unfold ConditionalEmailValidator.validateConditionally,
    ConditionalEmailValidator.shouldValidate, await, resolve.
  split; [|split].
  - intros v w' Hv.
    assert (Hshape : email_shape s) by (apply Hiff; by exists v, w').
    by rewrite (email_shape_includes_at _ Hshape).
  - intros e w'. destruct (includes s 0x40) eqn:Hat; [|discriminate].
    intros He. split; [done|]. split; [|done].
    intros Hshape. rewrite (Hyes Hshape) in He. discriminate He.
  - intros Hat. rewrite Hat. split; [done|].
    eexists. apply Hno. intros Hshape%email_shape_includes_at. congruence.
Qed.

Lemma ConditionalEmailValidator_relaxes_EmailValidator_witness :
  includes (js "not an e-mail") 0x40 = false
  /\ ConditionalEmailValidator.validateConditionally asciiToLowerCase
       (js "not an e-mail") tt tt
     = (Fulfilled (Success (js "not an e-mail")), tt)
  /\ exists e,
       validate (EmailValidator.new asciiToLowerCase)
         (js "not an e-mail") tt tt
       = (Fulfilled (Failure e), tt).
Proof.
  split; [reflexivity|].
  apply (proj2 (proj2 (ConditionalEmailValidator_relaxes_EmailValidator
                         asciiToLowerCase (js "not an e-mail") tt tt))).
  reflexivity.
Defined.

(** ** Trimming *)

Lemma trimStart_split (s : JsString) :
  exists l, s = l ++ trimStart s /\ forallb isWhiteSpace l = true.
Proof.
  induction s as [|c s (l & Hs & Hl)]; simpl.
  - by exists [].
  - destruct (isWhiteSpace c) eqn:Hc.
    + exists (c :: l). simpl. rewrite Hc, Hl. by rewrite Hs at 1.
    + by exists [].
Qed.

Lemma trimStart_clean (s : JsString) : starts_clean (trimStart s).
Proof.
  induction s as [|c s IH]; simpl; [done|].
  by destruct (isWhiteSpace c) eqn:Hc.
Qed.

Lemma trimStart_id (s : JsString) : starts_clean s -> trimStart s = s.
Proof. destruct s as [|c s]; simpl; [done|]. by intros ->. Qed.

Lemma forallb_rev {A} (p : A -> bool) (l : list A) :
  forallb p (rev l) = forallb p l.
Proof.
  induction l as [|a l IH]; simpl; [done|].
  rewrite forallb_app, IH. simpl. rewrite andb_true_r. apply andb_comm.
Qed.

Lemma trimEnd_split (s : JsString) :
  exists r, s = trimEnd s ++ r /\ forallb isWhiteSpace r = true.
Proof.
  unfold trimEnd. destruct (trimStart_split (rev s)) as (l & Hs & Hl).
  exists (rev l). split; [|by rewrite forallb_rev].
  rewrite <- rev_app_distr, <- Hs. by rewrite rev_involutive.
Qed.

Lemma trimEnd_clean (s : JsString) : starts_clean (rev (trimEnd s)).
Proof. unfold trimEnd. rewrite rev_involutive. apply trimStart_clean. Qed.

Lemma trimEnd_id (s : JsString) : starts_clean (rev s) -> trimEnd s = s.
Proof.
  intros H. unfold trimEnd. rewrite (trimStart_id _ H).
  apply rev_involutive.
Qed.

(** Cutting white space off the end keeps a clean start clean. *)
Lemma trimEnd_keeps_start (s : JsString) :
  starts_clean s -> starts_clean (trimEnd s).
Proof.
  destruct (trimEnd_split s) as (r & Hs & _).
  destruct (trimEnd s) as [|c t]; [done|].
  rewrite Hs. simpl. done.
Qed.

Lemma trim_stripped (s : JsString) : stripped (trim s).
Proof.
  split.
  - apply trimEnd_keeps_start, trimStart_clean.
  - apply trimEnd_clean.
Qed.

Lemma trim_id (s : JsString) : stripped s -> trim s = s.
Proof.
  intros [Hstart Hend]. unfold trim.
  rewrite (trimStart_id _ Hstart). by apply trimEnd_id.
Qed.

Lemma trim_idempotent (s : JsString) : trim (trim s) = trim s.
Proof. apply trim_id, trim_stripped. Qed.

Lemma trim_split (s : JsString) :
  exists l r,
    s = l ++ trim s ++ r
    /\ forallb isWhiteSpace l = true /\ forallb isWhiteSpace r = true.
Proof.
  destruct (trimStart_split s) as (l & Hs & Hl).
  destruct (trimEnd_split (trimStart s)) as (r & Ht & Hr).
  exists l, r. unfold trim. by rewrite <- Ht.
Qed.

Lemma stripped_space_nil (s : JsString) :
  starts_clean s -> forallb isWhiteSpace s = true -> s = [].
Proof.
  destruct s as [|c s]; simpl; [done|].
  intros -> H. discriminate H.
Qed.

Lemma trim_nil_iff (s : JsString) :
  trim s = [] <-> forallb isWhiteSpace s = true.
Proof.
  destruct (trim_split s) as (l & r & Hs & Hl & Hr). split.
  - intros Hnil. rewrite Hs, Hnil, !forallb_app, Hl, Hr. done.
  - intros Hall. apply stripped_space_nil; [apply trim_stripped|].
    rewrite Hs, !forallb_app in Hall.
    by apply andb_prop in Hall as [_ [H _]%andb_prop].
Qed.

Lemma TestConditionalValidator_validateConditionally_trim
    {IFlowContext World : Type}
    (s : JsString) (context : IFlowContext) (w : World) :
  TestConditionalValidator.validateConditionally s context w
  = (Fulfilled (Success (trim s)), w).
Proof. by destruct s. Qed.

(** X4.  The gate of [TestConditionalValidator] cannot be seen from
    outside: on every input, empty or not, [validateConditionally] succeeds
    with the trimmed input and leaves the world alone; validating its own
    output again returns that output unchanged. *)
Theorem TestConditionalValidator_trims {IFlowContext World : Type}
    (s : JsString) (context : IFlowContext) (w : World) :
  TestConditionalValidator.validateConditionally s context w
  = (Fulfilled (Success (trim s)), w)
  /\ TestConditionalValidator.validateConditionally (trim s) context w
     = (Fulfilled (Success (trim s)), w).
Proof.
  rewrite !TestConditionalValidator_validateConditionally_trim.
  by rewrite trim_idempotent.
Qed.

(** X5.  The output of [TestConditionalValidator.validateConditionally] is
    the input with a run of white space cut off at each end and nothing
    else changed; it neither starts nor ends with white space, and it is
    empty exactly when the input is white space throughout. *)
Theorem TestConditionalValidator_output_stripped {IFlowContext World : Type}
    (s : JsString) (context : IFlowContext) (w : World) :
  exists out l r,
    TestConditionalValidator.validateConditionally s context w
    = (Fulfilled (Success out), w)
    /\ s = l ++ out ++ r
    /\ forallb isWhiteSpace l = true
    /\ forallb isWhiteSpace r = true
    /\ stripped out
    /\ (out = [] <-> forallb isWhiteSpace s = true).
Proof.
  destruct (trim_split s) as (l & r & Hs & Hl & Hr).
  exists (trim s), l, r.
  split; [apply TestConditionalValidator_validateConditionally_trim|].
  repeat split; try done; try apply trim_stripped; apply trim_nil_iff.
Qed.

Example TestConditionalValidator_examples :
  TestConditionalValidator.validateConditionally (js "  a b  ") tt tt
  = (Fulfilled (Success (js "a b")), tt)
  /\ TestConditionalValidator.validateConditionally (js "   ") tt tt
     = (Fulfilled (Success (js "")), tt).
Proof. split; reflexivity. Qed.

(** ** The pipeline as a whole *)

(** X6.  A validator that throws, that is whose promise rejects, makes
    [StringValidationPipeline.validatePipeline] reject with the same
    error.  This holds of the first attached validator whatever
    [result.isSuccess] and [result.value] read; when they are the success
    flag and the payload, it holds of a validator at any position once the
    ones before it have succeeded, and none after it is invoked. *)
Theorem validatePipeline_propagates_rejection {IFlowContext World Any : Type}
    (isSuccess : FlowResult Any -> bool) (value : FlowResult Any -> Any)
    (σ : gmap ref (PipelineObject IFlowContext World Any))
    (this : ref) (o : PipelineObject IFlowContext World Any)
    (input : Any) (context : IFlowContext) (w : World) :
  σ !! this = Some o ->
  (forall v post err w2,
     validators o = v :: post ->
     validate v input context w = (Rejected err, w2) ->
     exists p,
       StringValidationPipeline.validatePipeline isSuccess value
         this input context σ = Some p
       /\ p w = (Rejected err, w2))
  /\ (reads_flag_and_payload isSuccess value ->
      forall pre v post y w1 err w2,
        validators o = pre ++ v :: post ->
        feed context pre input w = Some (y, w1) ->
        validate v y context w1 = (Rejected err, w2) ->
        exists p,
          StringValidationPipeline.validatePipeline isSuccess value
            this input context σ = Some p
          /\ p w = (Rejected err, w2)).
Proof.
  intros Hthis. rewrite (validatePipeline_live _ _ _ _ _ _ _ Hthis). split.
  - intros v post err w2 -> Hv.
    eexists; split; [reflexivity|]. by apply run_first_rejected.
  - intros Hreads pre v post y w1 err w2 -> Hfeed Hv.
    eexists; split; [reflexivity|]. by eapply run_rejected.
Qed.

(** A pipeline [throwing, spy] under any reading, here without a truthy
    [isSuccess]; and a pipeline [spy, throwing, spy] with the flag and the
    payload: the first spy has counted one call, the second none. *)
Lemma validatePipeline_propagates_rejection_witness :
  (exists p,
     StringValidationPipeline.validatePipeline
       (fun _ => false) (payload_or (js "")) 1%positive (js "x") tt
       ({[ 1%positive :=
             mkPipeline (js "string-pipeline") (js "String Validation Pipeline")
               [ throwing (js "v1") (mkJsError (js "Error") (js "boom"));
                 spy (js "v2") ] ]}
          : gmap ref (PipelineObject unit nat JsString))
     = Some p
     /\ p 0%nat = (Rejected (mkJsError (js "Error") (js "boom")), 0%nat))
  /\ (exists p,
        StringValidationPipeline.validatePipeline
          result_success (payload_or (js "")) 1%positive (js "x") tt
          ({[ 1%positive :=
                mkPipeline (js "string-pipeline")
                  (js "String Validation Pipeline")
                  [ spy (js "v1");
                    throwing (js "v2") (mkJsError (js "Error") (js "boom"));
                    spy (js "v3") ] ]}
             : gmap ref (PipelineObject unit nat JsString))
        = Some p
        /\ p 0%nat = (Rejected (mkJsError (js "Error") (js "boom")), 1%nat)).
Proof.
  split.
  - refine (proj1
      (validatePipeline_propagates_rejection
         (fun _ => false) (payload_or (js "")) _ 1%positive
         (mkPipeline (js "string-pipeline") (js "String Validation Pipeline")
            [ throwing (js "v1") (mkJsError (js "Error") (js "boom"));
              spy (js "v2") ])
         (js "x") tt 0%nat _)
      (throwing (js "v1") (mkJsError (js "Error") (js "boom")))
      [spy (js "v2")] (mkJsError (js "Error") (js "boom")) 0%nat _ _);
      reflexivity.
  - refine (proj2
      (validatePipeline_propagates_rejection
         result_success (payload_or (js "")) _ 1%positive
         (mkPipeline (js "string-pipeline") (js "String Validation Pipeline")
            [ spy (js "v1");
              throwing (js "v2") (mkJsError (js "Error") (js "boom"));
              spy (js "v3") ])
         (js "x") tt 0%nat _) _
      [spy (js "v1")]
      (throwing (js "v2") (mkJsError (js "Error") (js "boom")))
      [spy (js "v3")] (js "x") 1%nat
      (mkJsError (js "Error") (js "boom")) 1%nat _ _ _).
    + reflexivity.
    + split; [intros v; split; reflexivity | intros e; reflexivity].
    + reflexivity.
    + reflexivity.
    + reflexivity.
Defined.

(** X7.  [StringValidationPipeline.validatePipeline] makes up no outcome
    of its own.  Whenever a truthy [result.isSuccess] is only read off a
    success whose payload [result.value] reads, the pipeline settles as
    one of its attached validators did on some input, or, with no
    validator attached, succeeds with its input.  When the two properties
    are the success flag and the payload, more is true: a success carries
    the output of the whole chain, every validator having succeeded; a
    failure is the failure of an attached validator, all the ones before
    it having succeeded; a rejection is the rejection of such a
    validator. *)
Theorem validatePipeline_outcome_sound {IFlowContext World Any : Type}
    (isSuccess : FlowResult Any -> bool) (value : FlowResult Any -> Any)
    (σ : gmap ref (PipelineObject IFlowContext World Any))
    (this : ref) (o : PipelineObject IFlowContext World Any)
    (input : Any) (context : IFlowContext) (w : World) :
  σ !! this = Some o ->
  isSuccess_sound isSuccess value ->
  exists p,
    StringValidationPipeline.validatePipeline isSuccess value
      this input context σ = Some p
    /\ ((validators o = [] /\ p w = (Fulfilled (Success input), w))
        \/ (exists v x w0,
              In v (validators o) /\ p w = validate v x context w0))
    /\ (reads_flag_and_payload isSuccess value ->
        (forall y w',
           p w = (Fulfilled (Success y), w') ->
           feed context (validators o) input w = Some (y, w'))
        /\ (forall e w',
              p w = (Fulfilled (Failure e), w') ->
              exists pre v post y w1,
                validators o = pre ++ v :: post
                /\ feed context pre input w = Some (y, w1)
                /\ validate v y context w1 = (Fulfilled (Failure e), w'))
        /\ (forall err w',
              p w = (Rejected err, w') ->
              exists pre v post y w1,
                validators o = pre ++ v :: post
                /\ feed context pre input w = Some (y, w1)
                /\ validate v y context w1 = (Rejected err, w'))).
Proof.
  intros Hthis Hsound. rewrite (validatePipeline_live _ _ _ _ _ _ _ Hthis).
  eexists; split; [reflexivity|]. split.
  - destruct (validators o) as [|v vs] eqn:Hvs; [by left|].
    right. by apply run_from_validator.
  - intros Hreads.
    destruct (run_outcome isSuccess value (validators o) context input w Hreads)
      as [(y & w' & Hfeed & ->)
         |[(pre & v & post & y & w1 & e & w2 & Hvs & Hfeed & Hv & ->)
          |(pre & v & post & y & w1 & err & w2 & Hvs & Hfeed & Hv & ->)]].
    + repeat split; [|discriminate..]. by intros ? ? [= <- <-].
    + repeat split; [discriminate| |discriminate].
      intros ? ? [= <- <-]. by exists pre, v, post, y, w1.
    + repeat split; [discriminate..|].
      intros ? ? [= <- <-]. by exists pre, v, post, y, w1.
Qed.

(** The pipeline [upper, email] on ["x"], without a truthy [isSuccess]:
    it settles as the first validator did on ["x"]. *)
Lemma validatePipeline_outcome_sound_witness :
  exists p,
    StringValidationPipeline.validatePipeline
      (fun _ => false) (payload_or (js "")) 1%positive (js "x") tt
      ({[ 1%positive :=
            mkPipeline (js "string-pipeline") (js "String Validation Pipeline")
              [ TestValidator.new asciiToUpperCase;
                EmailValidator.new asciiToLowerCase ] ]}
         : gmap ref (PipelineObject unit unit JsString))
    = Some p
    /\ p tt = (Fulfilled (Success (js "X")), tt)
    /\ exists v x w0,
         In v [ TestValidator.new asciiToUpperCase;
                EmailValidator.new (IFlowContext := unit) (World := unit)
                  asciiToLowerCase ]
         /\ p tt = validate v x tt w0.
Proof.
  pose (o := mkPipeline (js "string-pipeline")
               (js "String Validation Pipeline")
               [ TestValidator.new (IFlowContext := unit) (World := unit)
                   asciiToUpperCase;
                 EmailValidator.new asciiToLowerCase ]).
  assert (Hthis : ({[ 1%positive := o ]}
                     : gmap ref (PipelineObject unit unit JsString))
                  !! 1%positive = Some o) by reflexivity.
  assert (Hsound : isSuccess_sound (T := JsString)
                     (fun _ => false) (payload_or (js ""))).
  { intros r Hr. discriminate Hr. }
  destruct (validatePipeline_outcome_sound _ _ _ 1%positive o
              (js "x") tt tt Hthis Hsound) as (p & Hp & Hfrom & _).
  exists p. split; [exact Hp|].
  split; [injection Hp as <-; reflexivity|].
  destruct Hfrom as [[Hnil _]|Hfrom]; [discriminate Hnil|exact Hfrom].
Defined.

(** X8.  When none of the attached validators ever throws,
    [StringValidationPipeline.validatePipeline] does not throw either: it
    settles fulfilled, with a success or a failure value.  This holds
    whatever [result.isSuccess] and [result.value] read. *)
Theorem validatePipeline_never_rejects {IFlowContext World Any : Type}
    (isSuccess : FlowResult Any -> bool) (value : FlowResult Any -> Any)
    (σ : gmap ref (PipelineObject IFlowContext World Any))
    (this : ref) (o : PipelineObject IFlowContext World Any)
    (input : Any) (context : IFlowContext) (w : World) :
  σ !! this = Some o ->
  (forall v, In v (validators o) ->
     forall x w0, exists r w1, validate v x context w0 = (Fulfilled r, w1)) ->
  exists p r w',
    StringValidationPipeline.validatePipeline isSuccess value
      this input context σ = Some p
    /\ p w = (Fulfilled r, w').
Proof.
  intros Hthis Hsafe. rewrite (validatePipeline_live _ _ _ _ _ _ _ Hthis).
  eexists.
  destruct (run_fulfils isSuccess value (validators o) context Hsafe input w)
    as (r & w' & Hrun).
  by exists r, w'.
Qed.

Lemma validatePipeline_never_rejects_witness :
  exists p r w',
    StringValidationPipeline.validatePipeline
      result_success (payload_or (js "")) 1%positive (js "a@b.c") tt
      ({[ 1%positive :=
            mkPipeline (js "string-pipeline") (js "String Validation Pipeline")
              [ TestValidator.new asciiToUpperCase;
                EmailValidator.new asciiToLowerCase ] ]}
         : gmap ref (PipelineObject unit unit JsString))
    = Some p
    /\ p tt = (Fulfilled r, w').
Proof.
  refine (validatePipeline_never_rejects
    result_success (payload_or (js "")) _ 1%positive
    (mkPipeline (js "string-pipeline") (js "String Validation Pipeline")
       [ TestValidator.new asciiToUpperCase;
         EmailValidator.new asciiToLowerCase ])
    (js "a@b.c") tt tt _ _); [reflexivity|].
  intros v [<-|[<-|[]]] x w0; by eexists _, _.
Defined.

(** X9.  What holds of a pipeline [ab] that has the validators of [a]
    followed by those of [b].  A failure or a rejection of [a] is also
    what [ab] settles on, [b] being left out, whatever [result.isSuccess]
    and [result.value] read.  When they are the success flag and the
    payload, pipelines compose: if [a] succeeds, [ab] returns what [b]
    returns on the output of [a].  When no result has a truthy [isSuccess]
    and [a] is not empty, [ab] settles exactly as [a] does and [b] is
    never run. *)
Theorem validatePipeline_concatenation {IFlowContext World Any : Type}
    (isSuccess : FlowResult Any -> bool) (value : FlowResult Any -> Any)
    (σ : gmap ref (PipelineObject IFlowContext World Any))
    (a b ab : ref) (oa ob oab : PipelineObject IFlowContext World Any)
    (input : Any) (context : IFlowContext) (w : World) :
  σ !! a = Some oa ->
  σ !! b = Some ob ->
  σ !! ab = Some oab ->
  validators oab = validators oa ++ validators ob ->
  exists pa pab,
    StringValidationPipeline.validatePipeline isSuccess value
      a input context σ = Some pa
    /\ StringValidationPipeline.validatePipeline isSuccess value
         ab input context σ = Some pab
    /\ (forall e w1,
          pa w = (Fulfilled (Failure e), w1) ->
          pab w = (Fulfilled (Failure e), w1))
    /\ (forall err w1,
          pa w = (Rejected err, w1) -> pab w = (Rejected err, w1))
    /\ (reads_flag_and_payload isSuccess value ->
        forall y w1,
          pa w = (Fulfilled (Success y), w1) ->
          exists pb,
            StringValidationPipeline.validatePipeline isSuccess value
              b y context σ = Some pb
            /\ pab w = pb w1)
    /\ (reads_no_isSuccess isSuccess ->
        validators oa <> [] -> pab w = pa w).
Proof.
  intros Ha Hb Hab Hvs.
  rewrite (validatePipeline_live _ _ _ _ _ _ _ Ha),
    (validatePipeline_live _ _ _ _ _ _ _ Hab), Hvs.
  eexists _, _. split; [reflexivity|]. split; [reflexivity|].
  split; [|split; [|split]].
  - intros e w1.
    apply (run_app_stops isSuccess value (validators oa) (validators ob)).
  - intros err w1.
    apply (run_app_stops isSuccess value (validators oa) (validators ob)).
  - intros Hreads y w1 Hpa.
    rewrite (validatePipeline_live _ _ _ _ _ _ _ Hb).
    eexists; split; [reflexivity|].
    by rewrite (run_app _ _ Hreads), Hpa.
  - intros Hnone Hne. destruct (validators oa) as [|v vs]; [done|].
    change ((v :: vs) ++ validators ob) with (v :: (vs ++ validators ob)).
    by rewrite !(run_returns_first _ _ Hnone).
Qed.

(** Pipelines [a = upper], [b = email] and [ab = upper, email] on
    ["a@b.c"], with the flag and the payload behind [isSuccess] and
    [value]. *)
Lemma validatePipeline_concatenation_witness :
  let upper := TestValidator.new (IFlowContext := unit) (World := unit)
                 asciiToUpperCase in
  let email := EmailValidator.new (IFlowContext := unit) (World := unit)
                 asciiToLowerCase in
  let σ : gmap ref (PipelineObject unit unit JsString) :=
    <[ 1%positive := mkPipeline (js "a") (js "a") [upper] ]>
      (<[ 2%positive := mkPipeline (js "b") (js "b") [email] ]>
         {[ 3%positive := mkPipeline (js "ab") (js "ab") [upper; email] ]}) in
  exists pa pab pb,
    StringValidationPipeline.validatePipeline
      result_success (payload_or (js "")) 1%positive (js "a@b.c") tt σ
    = Some pa
    /\ StringValidationPipeline.validatePipeline
         result_success (payload_or (js "")) 3%positive (js "a@b.c") tt σ
       = Some pab
    /\ pa tt = (Fulfilled (Success (js "A@B.C")), tt)
    /\ StringValidationPipeline.validatePipeline
         result_success (payload_or (js "")) 2%positive (js "A@B.C") tt σ
       = Some pb
    /\ pab tt = pb tt
    /\ pab tt = (Fulfilled (Success (js "a@b.c")), tt).
Proof.
  intros upper email σ.
  destruct (validatePipeline_concatenation
              result_success (payload_or (js ""))
              σ 1%positive 2%positive 3%positive
              (mkPipeline (js "a") (js "a") [upper])
              (mkPipeline (js "b") (js "b") [email])
              (mkPipeline (js "ab") (js "ab") [upper; email])
              (js "a@b.c") tt tt eq_refl eq_refl eq_refl eq_refl)
    as (pa & pab & Hpa & Hpab & _ & _ & Hok & _).
  assert (Hres : pa tt = (Fulfilled (Success (js "A@B.C")), tt)).
  { injection Hpa as <-. reflexivity. }
  destruct (Hok (result_success_reads_flag (js "")) _ _ Hres)
    as (pb & Hpb & Heq).
  exists pa, pab, pb. repeat split; try done.
  rewrite Heq. injection Hpb as <-. reflexivity.
Defined.

(** X10.  The two ends of composition: a pipeline without validators
    succeeds with its input and touches nothing; a pipeline with the single
    validator [v] settles exactly as [v.validate] does on the input.  The
    first holds whatever [result.isSuccess] and [result.value] read; the
    second whenever a truthy [isSuccess] is only read off a success whose
    payload [value] reads, which covers both the flag with the payload and
    the absence of a truthy [isSuccess]. *)
Theorem validatePipeline_empty_and_single {IFlowContext World Any : Type}
    (isSuccess : FlowResult Any -> bool) (value : FlowResult Any -> Any)
    (σ : gmap ref (PipelineObject IFlowContext World Any))
    (this : ref) (o : PipelineObject IFlowContext World Any)
    (v : IFlowValidator IFlowContext World Any Any)
    (input : Any) (context : IFlowContext) (w : World) :
  σ !! this = Some o ->
  exists p,
    StringValidationPipeline.validatePipeline isSuccess value
      this input context σ = Some p
    /\ (validators o = [] -> p w = (Fulfilled (Success input), w))
    /\ (isSuccess_sound isSuccess value ->
        validators o = [v] -> p w = validate v input context w).
Proof.
  intros Hthis. rewrite (validatePipeline_live _ _ _ _ _ _ _ Hthis).
  eexists; split; [reflexivity|]. split.
  - by intros ->.
  - intros Hsound ->. by apply run_single.
Qed.

Lemma validatePipeline_empty_and_single_witness :
  (exists p,
     StringValidationPipeline.validatePipeline
       result_success (payload_or (js "")) 1%positive (js "x") tt
       ({[ 1%positive :=
             mkPipeline (js "string-pipeline") (js "String Validation Pipeline")
               [ throwing (js "v") (mkJsError (js "Error") (js "boom")) ] ]}
          : gmap ref (PipelineObject unit nat JsString))
     = Some p
     /\ p 0%nat = (Rejected (mkJsError (js "Error") (js "boom")), 0%nat))
  /\ (exists p,
        StringValidationPipeline.validatePipeline
          (fun _ => false) (payload_or (js "")) 1%positive (js "x") tt
          ({[ 1%positive :=
                mkPipeline (js "string-pipeline")
                  (js "String Validation Pipeline")
                  [ EmailValidator.new asciiToLowerCase ] ]}
             : gmap ref (PipelineObject unit nat JsString))
        = Some p
        /\ p 0%nat
           = (Fulfilled
                (Failure (flowError (js "INVALID_EMAIL")
                            (js "Invalid email format") None)), 0%nat)).
Proof.
  split.
  - pose (v := throwing (IFlowContext := unit) (World := nat) (Any := JsString)
                 (js "v") (mkJsError (js "Error") (js "boom"))).
    pose (o := mkPipeline (js "string-pipeline")
                 (js "String Validation Pipeline") [v]).
    assert (Hthis : ({[ 1%positive := o ]}
                       : gmap ref (PipelineObject unit nat JsString))
                    !! 1%positive = Some o) by reflexivity.
    destruct (validatePipeline_empty_and_single
                result_success (payload_or (js "")) _ 1%positive o v
                (js "x") tt 0%nat Hthis) as (p & Hp & _ & Hsingle).
    exists p. split; [exact Hp|].
    exact (Hsingle (reads_flag_and_payload_sound _ _
                      (result_success_reads_flag (js ""))) eq_refl).
  - pose (v := EmailValidator.new (IFlowContext := unit) (World := nat)
                 asciiToLowerCase).
    pose (o := mkPipeline (js "string-pipeline")
                 (js "String Validation Pipeline") [v]).
    assert (Hthis : ({[ 1%positive := o ]}
                       : gmap ref (PipelineObject unit nat JsString))
                    !! 1%positive = Some o) by reflexivity.
    destruct (validatePipeline_empty_and_single
                (fun _ => false) (payload_or (js "")) _ 1%positive o v
                (js "x") tt 0%nat Hthis) as (p & Hp & _ & Hsingle).
    exists p. split; [exact Hp|].
    exact (Hsingle (reads_no_isSuccess_sound _ _ (fun _ => eq_refl)) eq_refl).
Defined.

(** ** Pipelines side by side *)

Section Frame.
Context {IFlowContext World Any : Type}.
Local Abbreviation Heap := (gmap ref (PipelineObject IFlowContext World Any)).

(** Every method reads its receiver's cell and nothing else. *)
Lemma methods_read_receiver (σ σ' : Heap) (l : ref) :
  σ' !! l = σ !! l ->
  StringValidationPipeline.getPipelineInfo l σ'
  = StringValidationPipeline.getPipelineInfo l σ
  /\ TestValidationPipeline.getPipelineInfo l σ'
     = TestValidationPipeline.getPipelineInfo l σ
  /\ (forall isSuccess value input context,
        StringValidationPipeline.validatePipeline isSuccess value
          l input context σ'
        = StringValidationPipeline.validatePipeline isSuccess value
            l input context σ)
  /\ (forall input context,
        TestValidationPipeline.validatePipeline l input context σ'
        = TestValidationPipeline.validatePipeline l input context σ).
Proof.
  intros Hl.
  unfold StringValidationPipeline.getPipelineInfo,
    TestValidationPipeline.getPipelineInfo,
    StringValidationPipeline.validatePipeline,
    TestValidationPipeline.validatePipeline.
  by rewrite Hl.
Qed.

Lemma addValidator_Some (σ σ' : Heap) this r v :
  StringValidationPipeline.addValidator this v σ = Some (r, σ') ->
  exists o, σ !! this = Some o /\ r = this
            /\ σ' = <[this := push_validator o v]> σ.
Proof.
  unfold StringValidationPipeline.addValidator.
  destruct (σ !! this) as [o|]; [|discriminate].
  intros [= <- <-]. by exists o.
Qed.
End Frame.

(** X11.  Pipelines do not share state: [addValidator] on one pipeline, of
    either class, leaves every other pipeline as it was, so
    [getPipelineInfo] and [validatePipeline] on the others return what they
    returned before. *)
Theorem addValidator_leaves_others {IFlowContext World Any : Type}
    (σ σ' : gmap ref (PipelineObject IFlowContext World Any))
    (this r other : ref) (v : IFlowValidator IFlowContext World Any Any) :
  other <> this ->
  StringValidationPipeline.addValidator this v σ = Some (r, σ')
  \/ TestValidationPipeline.addValidator this v σ = Some (r, σ') ->
  σ' !! other = σ !! other
  /\ StringValidationPipeline.getPipelineInfo other σ'
     = StringValidationPipeline.getPipelineInfo other σ
  /\ TestValidationPipeline.getPipelineInfo other σ'
     = TestValidationPipeline.getPipelineInfo other σ
  /\ (forall isSuccess value input context,
        StringValidationPipeline.validatePipeline isSuccess value
          other input context σ'
        = StringValidationPipeline.validatePipeline isSuccess value
            other input context σ)
  /\ (forall input context,
        TestValidationPipeline.validatePipeline other input context σ'
        = TestValidationPipeline.validatePipeline other input context σ).
Proof.
  intros Hne Hadd.
  assert (Hcell : σ' !! other = σ !! other).
  { change (@TestValidationPipeline.addValidator IFlowContext World Any)
      with (@StringValidationPipeline.addValidator IFlowContext World Any)
      in Hadd.
    destruct Hadd as [Hadd|Hadd];
      apply addValidator_Some in Hadd as (o & _ & _ & ->);
      by apply lookup_insert_ne. }
  split; [done|]. by apply methods_read_receiver.
Qed.

Lemma addValidator_leaves_others_witness :
  let σ : gmap ref (PipelineObject unit unit JsString) :=
    <[ 1%positive := mkPipeline (js "string-pipeline")
                       (js "String Validation Pipeline") [] ]>
      {[ 2%positive := mkPipeline (js "test-pipeline") (js "Test Pipeline")
                         [named (js "b")] ]} in
  exists σ',
    StringValidationPipeline.addValidator 1%positive (named (js "a")) σ
    = Some (1%positive, σ')
    /\ TestValidationPipeline.getPipelineInfo 2%positive σ'
       = Some (mkPipelineInfo 1 [js "b"])
    /\ StringValidationPipeline.getPipelineInfo 1%positive σ'
       = Some (mkPipelineInfo 1 [js "a"]).
Proof.
  intros σ. eexists. split; [reflexivity|]. split; [|reflexivity].
  refine (eq_trans (proj1 (proj2 (proj2
    (addValidator_leaves_others σ _ 1%positive 1%positive 2%positive
       (named (js "a")) _ (or_introl eq_refl))))) _).
  - discriminate.
  - reflexivity.
Defined.

(** X12.  [new], of either class, returns a reference that was not live
    and an empty pipeline behind it; the pipelines that were live stay as
    they were and none of them is the new one. *)
Theorem new_is_fresh {IFlowContext World Any : Type}
    (σ : gmap ref (PipelineObject IFlowContext World Any))
    (other : ref) (o : PipelineObject IFlowContext World Any) :
  σ !! other = Some o ->
  (σ !! (StringValidationPipeline.new σ).1 = None
   /\ other <> (StringValidationPipeline.new σ).1
   /\ (StringValidationPipeline.new σ).2 !! other = Some o
   /\ StringValidationPipeline.getPipelineInfo
        (StringValidationPipeline.new σ).1 (StringValidationPipeline.new σ).2
      = Some (mkPipelineInfo 0 []))
  /\ (σ !! (TestValidationPipeline.new σ).1 = None
      /\ other <> (TestValidationPipeline.new σ).1
      /\ (TestValidationPipeline.new σ).2 !! other = Some o
      /\ TestValidationPipeline.getPipelineInfo
           (TestValidationPipeline.new σ).1 (TestValidationPipeline.new σ).2
         = Some (mkPipelineInfo 0 [])).
Proof.
  intros Hother.
  destruct (new_fresh σ) as [Hnone Hnew].
  destruct (TestValidationPipeline_new_fresh σ) as [HnoneT HnewT].
  assert (Hne : other <> (StringValidationPipeline.new σ).1)
    by (intros ->; congruence).
  assert (HneT : other <> (TestValidationPipeline.new σ).1)
    by (intros ->; congruence).
  repeat split; try done.
  - unfold StringValidationPipeline.new in *. simpl in *.
    by rewrite lookup_insert_ne.
  - by rewrite (getPipelineInfo_live _ _ _ Hnew).
  - unfold TestValidationPipeline.new in *. simpl in *.
    by rewrite lookup_insert_ne.
  - change (@TestValidationPipeline.getPipelineInfo IFlowContext World Any)
      with (@StringValidationPipeline.getPipelineInfo IFlowContext World Any).
    by rewrite (getPipelineInfo_live _ _ _ HnewT).
Qed.

Lemma new_is_fresh_witness :
  let σ : gmap ref (PipelineObject unit unit JsString) :=
    {[ 1%positive := mkPipeline (js "test-pipeline") (js "Test Pipeline")
                       [named (js "b")] ]} in
  σ !! 1%positive
  = Some (mkPipeline (js "test-pipeline") (js "Test Pipeline")
            [named (js "b")])
  /\ 1%positive <> (StringValidationPipeline.new σ).1
  /\ (StringValidationPipeline.new σ).2 !! 1%positive
     = Some (mkPipeline (js "test-pipeline") (js "Test Pipeline")
               [named (js "b")]).
Proof.
  intros σ. split; [reflexivity|].
  destruct (new_is_fresh σ 1%positive
              (mkPipeline (js "test-pipeline") (js "Test Pipeline")
                 [named (js "b")]) eq_refl) as [(_ & Hne & Hkept & _) _].
  split; [exact Hne|exact Hkept].
Defined.

(** ** Numbers: NaN and the bounds of a range *)

Lemma SFcompare_refl (x : spec_float) :
  x <> S754_nan -> SFcompare x x = Some Eq.
Proof.
  destruct x as [s|s| |s m e]; simpl; try done.
  - by destruct s.
  - intros _. rewrite Z.compare_refl.
    change (Pos.compare_cont Eq m m) with (Pos.compare m m).
    rewrite Pos.compare_refl. by destruct s.
Qed.

Lemma is_nan_spec (x : float) :
  PrimFloat.is_nan x = true <-> Prim2SF x = S754_nan.
Proof.
  unfold PrimFloat.is_nan. rewrite FloatAxioms.eqb_spec. unfold SFeqb.
  split.
  - intros H. destruct (Prim2SF x) eqn:Hx; try done;
      rewrite SFcompare_refl in H by done; discriminate H.
  - by intros ->.
Qed.

(** A comparison with NaN on either side is false. *)
Lemma leb_nan (x y : float) :
  PrimFloat.is_nan x = true \/ PrimFloat.is_nan y = true ->
  PrimFloat.leb x y = false.
Proof.
  rewrite !is_nan_spec, FloatAxioms.leb_spec. unfold SFleb.
  intros [->| ->]; [done|]. by destruct (Prim2SF x).
Qed.

Lemma leb_true_not_nan (x y : float) :
  PrimFloat.leb x y = true ->
  PrimFloat.is_nan x = false /\ PrimFloat.is_nan y = false.
Proof.
  intros Hle.
  destruct (PrimFloat.is_nan x) eqn:Hx, (PrimFloat.is_nan y) eqn:Hy; try done;
    rewrite leb_nan in Hle by auto; discriminate Hle.
Qed.

Lemma leb_refl (x : float) :
  PrimFloat.is_nan x = false -> PrimFloat.leb x x = true.
Proof.
  intros Hx. rewrite FloatAxioms.leb_spec. unfold SFleb.
  rewrite SFcompare_refl; [done|].
  intros Hnan%is_nan_spec. congruence.
Qed.

(** [a <= n] and [n <= b] leave no room for [b < a]. *)
Lemma SFleb_trans_not_lt (a n b : spec_float) :
  SFleb a n = true -> SFleb n b = true -> SFltb b a = false.
Proof.
  unfold SFleb, SFltb.
  destruct a as [sa|sa| |sa ma ea], n as [sn|sn| |sn mn en],
    b as [sb|sb| |sb mb eb]; simpl; try done;
    try (destruct sa); try (destruct sn); try (destruct sb);
    simpl; try done;
    change (Pos.compare_cont Eq) with Pos.compare;
    destruct (Z.compare_spec ea en), (Z.compare_spec en eb),
      (Z.compare_spec eb ea); subst; simpl; try done; try lia;
    destruct (Pos.compare_spec ma mn), (Pos.compare_spec mn mb),
      (Pos.compare_spec mb ma); subst; simpl; try done; try lia.
Qed.

Lemma leb_leb_not_ltb (a n b : float) :
  PrimFloat.leb a n = true -> PrimFloat.leb n b = true ->
  PrimFloat.ltb b a = false.
Proof.
  rewrite !FloatAxioms.leb_spec, FloatAxioms.ltb_spec.
  apply SFleb_trans_not_lt.
Qed.

(** X13.  [NumberRangeValidator] refuses NaN: when the input or one of the
    bounds is NaN, [validate] returns the failure [OUT_OF_RANGE]. *)
Theorem NumberRangeValidator_rejects_nan {IFlowContext World : Type}
    (numberToString : float -> JsString) (min max n : float)
    (context : IFlowContext) (w : World) :
  PrimFloat.is_nan n = true \/ PrimFloat.is_nan min = true
  \/ PrimFloat.is_nan max = true ->
  exists e,
    validate (NumberRangeValidator.new numberToString min max) n context w
    = (Fulfilled (Failure e), w)
    /\ code e = js "OUT_OF_RANGE".
Proof.
  intros Hnan. simpl. unfold NumberRangeValidator.validate.
  assert (PrimFloat.leb min n && PrimFloat.leb n max = false) as ->.
  { apply andb_false_iff.
    destruct Hnan as [Hn|[Hmin|Hmax]];
      [left|left|right]; apply leb_nan; auto. }
  by eexists.
Qed.

Lemma NumberRangeValidator_rejects_nan_witness :
  PrimFloat.is_nan nan = true
  /\ exists e,
       validate (NumberRangeValidator.new (fun _ => js "n")
                   neg_infinity infinity) nan tt tt
       = (Fulfilled (Failure e), tt)
       /\ code e = js "OUT_OF_RANGE".
Proof.
  split; [reflexivity|].
  apply (NumberRangeValidator_rejects_nan (IFlowContext := unit)
           (fun _ => js "n") neg_infinity infinity nan tt tt).
  left. reflexivity.
Defined.

(** X14.  The range of [NumberRangeValidator] is closed and may be empty:
    when [min <= max], both [min] and [max] are accepted and returned
    unchanged; when [max < min], no input at all is accepted. *)
Theorem NumberRangeValidator_bounds {IFlowContext World : Type}
    (numberToString : float -> JsString) (min max n : float)
    (context : IFlowContext) (w : World) :
  (PrimFloat.leb min max = true ->
   validate (NumberRangeValidator.new numberToString min max) min context w
   = (Fulfilled (Success min), w)
   /\ validate (NumberRangeValidator.new numberToString min max) max context w
      = (Fulfilled (Success max), w))
  /\ (PrimFloat.ltb max min = true ->
      exists e,
        validate (NumberRangeValidator.new numberToString min max) n context w
        = (Fulfilled (Failure e), w)).
Proof.
  simpl. unfold NumberRangeValidator.validate. split.
  - intros Hle. destruct (leb_true_not_nan _ _ Hle) as [Hmin Hmax].
    by rewrite Hle, !leb_refl.
  - intros Hlt.
    destruct (PrimFloat.leb min n) eqn:H1, (PrimFloat.leb n max) eqn:H2;
      simpl; try by eexists.
    rewrite (leb_leb_not_ltb _ _ _ H1 H2) in Hlt. discriminate Hlt.
Qed.

Lemma NumberRangeValidator_bounds_witness :
  PrimFloat.ltb 1%float 10%float = true
  /\ exists e,
       validate (NumberRangeValidator.new (fun _ => js "n")
                   10%float 1%float) 5%float tt tt
       = (Fulfilled (Failure e), tt).
Proof.
  split; [reflexivity|].
  apply (proj2 (NumberRangeValidator_bounds (IFlowContext := unit)
                  (fun _ => js "n") 10%float 1%float 5%float tt tt)).
  reflexivity.
Defined.

(** X15.  [validateAge] accepts exactly the numbers
    [NumberRangeValidator(18, 120)] accepts, with the same value, and both
    leave the world alone; in particular it refuses NaN, and what it
    refuses comes back as the failure [INVALID_AGE]. *)
Theorem validateAge_as_range {IFlowContext World : Type}
    (numberToString : float -> JsString) (age : float)
    (context : IFlowValidationContext IFlowContext) (w : World) :
  (forall v w',
     validateAge age context w = (Fulfilled (Success v), w')
     <-> validate (NumberRangeValidator.new numberToString 18%float 120%float)
           age (base_context context) w
         = (Fulfilled (Success v), w'))
  /\ (PrimFloat.is_nan age = true ->
      validateAge age context w
      = (Fulfilled
           (Failure (flowError (js "INVALID_AGE")
                       (js "Age must be 18-120") None)), w))
  /\ (forall e w',
        validateAge age context w = (Fulfilled (Failure e), w') ->
        e = flowError (js "INVALID_AGE") (js "Age must be 18-120") None
        /\ w' = w).
Proof.
  simpl. unfold validateAge, NumberRangeValidator.validate, resolve.
  split; [|split].
  - intros v w'.
    by destruct (PrimFloat.leb 18 age && PrimFloat.leb age 120).
  - intros Hnan. rewrite (leb_nan 18 age) by auto. done.
  - intros e w'.
    destruct (PrimFloat.leb 18 age && PrimFloat.leb age 120);
      intros [= <- <-]; done.
Qed.

Lemma validateAge_as_range_witness :
  PrimFloat.is_nan nan = true
  /\ validateAge nan
       (mkValidationContext tt []
          [] (mkValidationOptions true false (Some 5000%float))) tt
     = (Fulfilled
          (Failure (flowError (js "INVALID_AGE")
                      (js "Age must be 18-120") None)), tt).
Proof.
  split; [reflexivity|].
  apply (proj1 (proj2 (validateAge_as_range (fun _ => js "n") nan
    (mkValidationContext tt [] []
       (mkValidationOptions true false (Some 5000%float))) tt))).
  reflexivity.
Defined.

(** ** The rules a builder records *)

Lemma declare_rules {IFlowContext World}
    (d : Declaration IFlowContext World) (b : TestValidationBuilder.t) :
  TestValidationBuilder.rules (declare d b)
  = TestValidationBuilder.rules b ++ [rule_of d].
Proof. by destruct d. Qed.

Lemma declare_all_rules {IFlowContext World}
    (ds : list (Declaration IFlowContext World)) :
  forall b,
    TestValidationBuilder.rules (declare_all ds b)
    = TestValidationBuilder.rules b ++ List.map rule_of ds.
Proof.
  unfold declare_all.
  induction ds as [|d ds IH]; intros b; simpl.
  - by rewrite app_nil_r.
  - rewrite IH, declare_rules. by rewrite <- app_assoc.
Qed.

(** X16.  [TestValidationBuilder] keeps a faithful log: after any chain of
    fluent calls its rule list is the one it had followed by one rule per
    call, in call order, and the log is unambiguous, two calls leaving the
    same rule only when they are of the same kind with the same type name
    or the same validator identifier. *)
Theorem TestValidationBuilder_logs_declarations {IFlowContext World : Type}
    (ds : list (Declaration IFlowContext World))
    (d1 d2 : Declaration IFlowContext World)
    (b : TestValidationBuilder.t) :
  TestValidationBuilder.rules (declare_all ds b)
  = TestValidationBuilder.rules b ++ List.map rule_of ds
  /\ length (TestValidationBuilder.rules (declare_all ds b))
     = (length (TestValidationBuilder.rules b) + length ds)%nat
  /\ (TestValidationBuilder.rules (declare d1 b)
      = TestValidationBuilder.rules (declare d2 b)
      -> same_declaration d1 d2).
Proof.
  split; [apply declare_all_rules|]. split.
  - by rewrite declare_all_rules, length_app, length_map.
  - rewrite !declare_rules.
    destruct d1 as [|t1|v1], d2 as [|t2|v2]; simpl;
      intros Heq%app_inv_head; try done; try discriminate Heq.
    + by injection Heq as ->.
    + by injection Heq as ->.
Qed.

Lemma TestValidationBuilder_logs_declarations_witness :
  let d1 : Declaration unit unit :=
    DeclCustom (EmailValidator.new asciiToLowerCase) in
  let d2 : Declaration unit unit :=
    DeclCustom (named (js "email-validator")) in
  TestValidationBuilder.rules (declare d1 TestValidationBuilder.new)
  = TestValidationBuilder.rules (declare d2 TestValidationBuilder.new)
  /\ same_declaration d1 d2
  /\ TestValidationBuilder.rules
       (declare_all [DeclRequired; DeclType (js "string"); d1]
          TestValidationBuilder.new)
     = [ js "required"; js "type:string"; js "custom:email-validator" ].
Proof.
  intros d1 d2. split; [reflexivity|]. split.
  - apply (proj2 (proj2 (TestValidationBuilder_logs_declarations
             [] d1 d2 TestValidationBuilder.new))).
    reflexivity.
  - exact (proj1 (TestValidationBuilder_logs_declarations
             [DeclRequired; DeclType (js "string"); d1]
             d1 d2 TestValidationBuilder.new)).
Defined.

(** ** From construction to execution *)

(** X17.  The README's usage pattern, [new StringValidationPipeline()
    .addValidator(v1)...addValidator(vn)] followed by [validatePipeline]:
    the chained calls all return the new pipeline, which then holds
    [v1..vn] in the order of the calls.  When [result.isSuccess] and
    [result.value] are the success flag and the payload, the pipeline runs
    them in that order, returning the last output when all succeed and the
    first failure otherwise; when no result has a truthy [isSuccess], it
    returns what [v1] returns. *)
Theorem chained_addValidator_then_validatePipeline
    {IFlowContext World Any : Type}
    (isSuccess : FlowResult Any -> bool) (value : FlowResult Any -> Any)
    (σ : gmap ref (PipelineObject IFlowContext World Any))
    (vs : list (IFlowValidator IFlowContext World Any Any))
    (input : Any) (context : IFlowContext) (w : World) :
  exists σ' p,
    attach StringValidationPipeline.addValidator
      (StringValidationPipeline.new σ).1 vs (StringValidationPipeline.new σ).2
    = Some ((StringValidationPipeline.new σ).1, σ')
    /\ StringValidationPipeline.getPipelineInfo
         (StringValidationPipeline.new σ).1 σ'
       = Some (mkPipelineInfo (length vs) (List.map (fun v => id v) vs))
    /\ StringValidationPipeline.validatePipeline isSuccess value
         (StringValidationPipeline.new σ).1 input context σ'
       = Some p
    /\ (reads_flag_and_payload isSuccess value ->
        (forall y w',
           feed context vs input w = Some (y, w') ->
           p w = (Fulfilled (Success y), w'))
        /\ (forall pre v post y w1 e w2,
              vs = pre ++ v :: post ->
              feed context pre input w = Some (y, w1) ->
              validate v y context w1 = (Fulfilled (Failure e), w2) ->
              p w = (Fulfilled (Failure e), w2)))
    /\ (reads_no_isSuccess isSuccess ->
        forall v rest, vs = v :: rest -> p w = validate v input context w).
Proof.
  destruct (new_fresh σ) as [_ Hnew].
  destruct (attach_live vs _ _ _ Hnew) as (σ' & Hattach & Hobj & _).
  exists σ'. eexists. split; [exact Hattach|].
  split; [by rewrite (getPipelineInfo_live _ _ _ Hobj)|].
  split; [by apply (validatePipeline_live _ _ _ _ _ _ _ Hobj)|].
  simpl. split.
  - intros Hreads. split.
    + intros y w' Hfeed. by apply run_success.
    + intros pre v post y w1 e w2 -> Hfeed Hv. by eapply run_failure.
  - intros Hnone v rest ->. by apply run_returns_first.
Qed.

Lemma chained_addValidator_then_validatePipeline_witness :
  (exists σ' p,
     attach StringValidationPipeline.addValidator
       (StringValidationPipeline.new
          (∅ : gmap ref (PipelineObject unit unit JsString))).1
       [ TestValidator.new asciiToUpperCase;
         EmailValidator.new asciiToLowerCase ]
       (StringValidationPipeline.new
          (∅ : gmap ref (PipelineObject unit unit JsString))).2
     = Some ((StringValidationPipeline.new
                (∅ : gmap ref (PipelineObject unit unit JsString))).1, σ')
     /\ StringValidationPipeline.validatePipeline
          result_success (payload_or (js ""))
          (StringValidationPipeline.new
             (∅ : gmap ref (PipelineObject unit unit JsString))).1
          (js "Ann@Example.org") tt σ'
        = Some p
     /\ p tt = (Fulfilled (Success (js "ann@example.org")), tt))
  /\ (exists σ' p,
        attach StringValidationPipeline.addValidator
          (StringValidationPipeline.new
             (∅ : gmap ref (PipelineObject unit unit JsString))).1
          [ TestValidator.new asciiToUpperCase;
            EmailValidator.new asciiToLowerCase ]
          (StringValidationPipeline.new
             (∅ : gmap ref (PipelineObject unit unit JsString))).2
        = Some ((StringValidationPipeline.new
                   (∅ : gmap ref (PipelineObject unit unit JsString))).1, σ')
        /\ StringValidationPipeline.validatePipeline
             (fun _ => false) (payload_or (js ""))
             (StringValidationPipeline.new
                (∅ : gmap ref (PipelineObject unit unit JsString))).1
             (js "Ann@Example.org") tt σ'
           = Some p
        /\ p tt = (Fulfilled (Success (js "ANN@EXAMPLE.ORG")), tt)).
Proof.
  split.
  - destruct (chained_addValidator_then_validatePipeline
                result_success (payload_or (js ""))
                (∅ : gmap ref (PipelineObject unit unit JsString))
                [ TestValidator.new asciiToUpperCase;
                  EmailValidator.new asciiToLowerCase ]
                (js "Ann@Example.org") tt tt)
      as (σ' & p & Hattach & _ & Hp & Hflag & _).
    exists σ', p. split; [exact Hattach|]. split; [exact Hp|].
    apply (proj1 (Hflag (result_success_reads_flag (js "")))). reflexivity.
  - destruct (chained_addValidator_then_validatePipeline
                (fun _ => false) (payload_or (js ""))
                (∅ : gmap ref (PipelineObject unit unit JsString))
                [ TestValidator.new asciiToUpperCase;
                  EmailValidator.new asciiToLowerCase ]
                (js "Ann@Example.org") tt tt)
      as (σ' & p & Hattach & _ & Hp & _ & Hnone).
    exists σ', p. split; [exact Hattach|]. split; [exact Hp|].
    exact (Hnone (fun _ => eq_refl) _ _ eq_refl).
Defined.
